(** * crypto-nonce-finder: the proof-of-work search of [crypto-nonce-finder.js]

    A shallow embedding of [findNonceWithLeadingZeros] and of the pieces of
    the JavaScript run time it calls.

    - A JavaScript string is the list of its UTF-16 code units.
    - [hash.update(s)] hashes the UTF-8 encoding of [s]; [digest('hex')]
      renders the 32 digest bytes as 64 lowercase hexadecimal characters.
    - SHA-256 is written out (FIPS 180-4) on 32-bit words held in [Z].
    - The nonce is a JavaScript Number.  From 0 the counter only takes the
      integers 0 .. 2^53, which are exact doubles; [nonce++] is exact below
      2^53 and leaves 2^53 unchanged (2^53 + 1 rounds to even).
    - The function is [async]: a call ends as a fulfilled promise, a rejected
      promise, or does not settle.  The only suspension point is the
      [await] taken after every 1,000,000th nonce; the SIGINT handler of the
      module can run only there, and it ends the process.
    - Of the limits of the engine, the longest string (V8 on a 64-bit host:
      2^29 - 24 code units) is modelled in ["0".repeat], where an argument
      sets the length of the string built.  The prefix is taken short
      enough for the prefix followed by a numeral to be a string; memory is
      not modelled. *)

From Stdlib Require Import String Ascii.
From Stdlib Require Import ZArith List Bool Lia.
Import ListNotations.

Local Open Scope Z_scope.

(** ** JavaScript strings and bytes *)

(** UTF-16 code units, each in [0, 2^16). *)
Definition js_string := list Z.

(** A string literal of the source that holds ASCII characters only. *)
Definition lit (s : string) : js_string :=
  map (fun a => Z.of_N (N_of_ascii a)) (list_ascii_of_string s).

(** Octets, each in [0, 2^8). *)
Definition bytes := list Z.

(** ** SHA-256 *)

Module SHA256.

Definition mask32 : Z := 4294967295.

Definition add32 (a b : Z) : Z := Z.land (a + b) mask32.

Definition rotr (n x : Z) : Z :=
  Z.lor (Z.shiftr x n) (Z.land (Z.shiftl x (32 - n)) mask32).

Definition shr (n x : Z) : Z := Z.shiftr x n.

Definition not32 (x : Z) : Z := Z.lxor x mask32.

Definition Ch (x y z : Z) : Z := Z.lxor (Z.land x y) (Z.land (not32 x) z).

Definition Maj (x y z : Z) : Z :=
  Z.lxor (Z.lxor (Z.land x y) (Z.land x z)) (Z.land y z).

Definition Sigma0 (x : Z) : Z :=
  Z.lxor (Z.lxor (rotr 2 x) (rotr 13 x)) (rotr 22 x).

Definition Sigma1 (x : Z) : Z :=
  Z.lxor (Z.lxor (rotr 6 x) (rotr 11 x)) (rotr 25 x).

Definition sigma0 (x : Z) : Z :=
  Z.lxor (Z.lxor (rotr 7 x) (rotr 18 x)) (shr 3 x).

Definition sigma1 (x : Z) : Z :=
  Z.lxor (Z.lxor (rotr 17 x) (rotr 19 x)) (shr 10 x).

(** The first 64 primes. *)
Definition primes : list Z :=
  filter (fun n => forallb (fun d => negb (n mod d =? 0))
                           (map Z.of_nat (seq 2 (Z.to_nat n - 2))))
         (map Z.of_nat (seq 2 310)).

(** Bits [k - 1] down to 0 are added to [r0] one at a time, each kept when
    the cube stays at or below [n]: from [r0 = 0] and for [n < 2 ^ (3 * k)],
    the integer cube root of [n]. *)
Fixpoint cube_root_from (k : nat) (n r0 : Z) : Z :=
  match k with
  | O => r0
  | S k' =>
      let r := r0 + 2 ^ Z.of_nat k' in
      cube_root_from k' n (if r * r * r <=? n then r else r0)
  end.

(** The round constants: the first 32 bits of the fractional parts of the
    cube roots of the first 64 primes (see [K_from_primes]). *)
Definition K : list Z :=
  [ 1116352408; 1899447441; 3049323471; 3921009573;
    961987163; 1508970993; 2453635748; 2870763221;
    3624381080; 310598401; 607225278; 1426881987;
    1925078388; 2162078206; 2614888103; 3248222580;
    3835390401; 4022224774; 264347078; 604807628;
    770255983; 1249150122; 1555081692; 1996064986;
    2554220882; 2821834349; 2952996808; 3210313671;
    3336571891; 3584528711; 113926993; 338241895;
    666307205; 773529912; 1294757372; 1396182291;
    1695183700; 1986661051; 2177026350; 2456956037;
    2730485921; 2820302411; 3259730800; 3345764771;
    3516065817; 3600352804; 4094571909; 275423344;
    430227734; 506948616; 659060556; 883997877;
    958139571; 1322822218; 1537002063; 1747873779;
    1955562222; 2024104815; 2227730452; 2361852424;
    2428436474; 2756734187; 3204031479; 3329325298 ].

(** The eight working variables, and the chaining value, of the
    compression function. *)
Record regs : Type := Regs {
  ra : Z; rb : Z; rc : Z; rd : Z; re : Z; rf : Z; rg : Z; rh : Z }.

Definition H0 : regs :=
  Regs 0x6a09e667 0xbb67ae85 0x3c6ef372 0xa54ff53a
       0x510e527f 0x9b05688c 0x1f83d9ab 0x5be0cd19.

(** Padding: the bit 1, zero bits up to 448 modulo 512, then the message
    length in bits as a 64-bit big-endian integer. *)
Definition be_bytes (n : nat) (x : Z) : bytes :=
  map (fun i => Z.land (Z.shiftr x (8 * Z.of_nat i)) 255) (rev (seq 0 n)).

Definition pad (msg : bytes) : bytes :=
  let len := Z.of_nat (length msg) in
  let zeros := Z.to_nat ((55 - len) mod 64) in
  msg ++ [128] ++ repeat 0 zeros ++ be_bytes 8 ((8 * len) mod 2 ^ 64).

(** Big-endian 32-bit words of a byte sequence; a short tail is dropped
    (a padded message has none). *)
Fixpoint words (bs : bytes) : list Z :=
  match bs with
  | b0 :: b1 :: b2 :: b3 :: rest =>
      Z.lor (Z.shiftl b0 24)
        (Z.lor (Z.shiftl b1 16) (Z.lor (Z.shiftl b2 8) b3)) :: words rest
  | _ => []
  end.

(** The 16-word blocks of a word sequence, taken [n] at a time. *)
Fixpoint blocks (n : nat) (ws : list Z) : list (list Z) :=
  match n with
  | O => []
  | S n' => firstn 16 ws :: blocks n' (skipn 16 ws)
  end.

(** Message schedule: [extend k w] appends [k] words to [w], each from the
    sixteen before it; [rw] is the schedule so far, latest word first. *)
Fixpoint extend (k : nat) (rw : list Z) : list Z :=
  match k with
  | O => rw
  | S k' =>
      let w2 := nth 1 rw 0 in
      let w7 := nth 6 rw 0 in
      let w15 := nth 14 rw 0 in
      let w16 := nth 15 rw 0 in
      extend k' (add32 (add32 (sigma1 w2) w7) (add32 (sigma0 w15) w16) :: rw)
  end.

Definition schedule (block : list Z) : list Z :=
  rev (extend 48 (rev block)).

Definition round (r : regs) (kw : Z * Z) : regs :=
  let (k, w) := kw in
  let t1 := add32 (add32 (add32 (rh r) (Sigma1 (re r)))
                     (add32 (Ch (re r) (rf r) (rg r)) k)) w in
  let t2 := add32 (Sigma0 (ra r)) (Maj (ra r) (rb r) (rc r)) in
  Regs (add32 t1 t2) (ra r) (rb r) (rc r) (add32 (rd r) t1) (re r) (rf r) (rg r).

Definition compress (h : regs) (block : list Z) : regs :=
  let r := fold_left round (combine K (schedule block)) h in
  Regs (add32 (ra h) (ra r)) (add32 (rb h) (rb r))
       (add32 (rc h) (rc r)) (add32 (rd h) (rd r))
       (add32 (re h) (re r)) (add32 (rf h) (rf r))
       (add32 (rg h) (rg r)) (add32 (rh h) (rh r)).

Definition hash (msg : bytes) : regs :=
  let p := pad msg in
  fold_left compress (blocks (length p / 64) (words p)) H0.

(** The digest as 32 bytes. *)
Definition digest_bytes (h : regs) : bytes :=
  be_bytes 4 (ra h) ++ be_bytes 4 (rb h) ++ be_bytes 4 (rc h) ++
  be_bytes 4 (rd h) ++ be_bytes 4 (re h) ++ be_bytes 4 (rf h) ++
  be_bytes 4 (rg h) ++ be_bytes 4 (rh h).

End SHA256.

(** ** [digest('hex')] *)

(** One lowercase hexadecimal digit, as a code unit. *)
Definition hex_digit (d : Z) : Z := if d <? 10 then 48 + d else 87 + d.

Definition hex_of_byte (b : Z) : js_string :=
  [hex_digit (Z.land (Z.shiftr b 4) 15); hex_digit (Z.land b 15)].

Definition hex_encode (bs : bytes) : js_string := flat_map hex_of_byte bs.

(** [crypto.createHash('sha256')], [update] with the bytes [msg], then
    [digest('hex')]. *)
Definition sha256_hex (msg : bytes) : js_string :=
  hex_encode (SHA256.digest_bytes (SHA256.hash msg)).

(** ** [hash.update(string)]: the UTF-8 encoding of a JavaScript string *)

Definition is_high_surrogate (c : Z) : bool := (0xD800 <=? c) && (c <=? 0xDBFF).
Definition is_low_surrogate (c : Z) : bool := (0xDC00 <=? c) && (c <=? 0xDFFF).

Definition utf8_of_code_point (cp : Z) : bytes :=
  if cp <? 0x80 then [cp]
  else if cp <? 0x800 then
    [Z.lor 0xC0 (Z.shiftr cp 6); Z.lor 0x80 (Z.land cp 0x3F)]
  else if cp <? 0x10000 then
    [Z.lor 0xE0 (Z.shiftr cp 12);
     Z.lor 0x80 (Z.land (Z.shiftr cp 6) 0x3F);
     Z.lor 0x80 (Z.land cp 0x3F)]
  else
    [Z.lor 0xF0 (Z.shiftr cp 18);
     Z.lor 0x80 (Z.land (Z.shiftr cp 12) 0x3F);
     Z.lor 0x80 (Z.land (Z.shiftr cp 6) 0x3F);
     Z.lor 0x80 (Z.land cp 0x3F)].

Definition replacement_character : Z := 0xFFFD.

(** A surrogate pair is one code point; a surrogate that is not part of a
    pair is encoded as U+FFFD. *)
Fixpoint utf8_encode (s : js_string) : bytes :=
  match s with
  | [] => []
  | c :: rest =>
      if is_high_surrogate c then
        match rest with
        | d :: rest' =>
            if is_low_surrogate d then
              utf8_of_code_point
                (0x10000 + Z.shiftl (c - 0xD800) 10 + (d - 0xDC00))
                ++ utf8_encode rest'
            else utf8_of_code_point replacement_character ++ utf8_encode rest
        | [] => utf8_of_code_point replacement_character
        end
      else if is_low_surrogate c then
        utf8_of_code_point replacement_character ++ utf8_encode rest
      else utf8_of_code_point c ++ utf8_encode rest
  end.

(** ** Built-ins of Number and String *)

(** The largest value the counter reaches: 2^53. *)
Definition MAX_NONCE : Z := 9007199254740992.

(** [nonce++] on the counter's values: exact below 2^53; at 2^53 the sum
    2^53 + 1 is not a double and rounds back to 2^53. *)
Definition increment (nonce : Z) : Z :=
  if nonce <? MAX_NONCE then nonce + 1 else nonce.

Fixpoint digits_from (fuel : nat) (n : Z) (acc : js_string) : js_string :=
  match fuel with
  | O => acc
  | S fuel' =>
      let acc' := (48 + n mod 10) :: acc in
      if n <? 10 then acc' else digits_from fuel' (n / 10) acc'
  end.

(** [n.toString()] for an integer [0 <= n < 10^21]: the decimal numeral. *)
Definition Number_toString (n : Z) : js_string :=
  digits_from (S (Z.to_nat (Z.log2 n))) n [].

(** What [throw] carries. *)
Inductive error : Type :=
| RangeError.

(** The longest string of the engine: [String::kMaxLength] of V8 on a
    64-bit host, 2^29 - 24. *)
Definition MAX_STRING_LENGTH : Z := 536870888.

(** [s.repeat(count)] for an integer [count]: a RangeError for a negative
    count ("Invalid count value") and for a result longer than the longest
    string ("Invalid string length"). *)
Definition String_repeat (s : js_string) (count : Z) : error + js_string :=
  if count <? 0 then inl RangeError
  else if MAX_STRING_LENGTH <? Z.of_nat (length s) * count then inl RangeError
  else inr (concat (repeat s (Z.to_nat count))).

(** [s.startsWith(search)]. *)
Fixpoint startsWith (s search : js_string) {struct search} : bool :=
  match search with
  | [] => true
  | c :: search' =>
      match s with
      | [] => false
      | d :: s' => (d =? c) && startsWith s' search'
      end
  end.

(** ** The search *)

(** A call in progress: its counter, and a record of what it has done
    (digests computed, lines written to stderr, suspensions). *)
Record state : Type := State {
  nonce : Z;                (* the counter *)
  hashed : list bytes;      (* the inputs given to SHA-256, latest first *)
  stderr : list Z;          (* the counts reported on stderr, latest first *)
  checkpoints : nat         (* the [await]s passed *)
}.

(** How a call stands: the promise is fulfilled with [[nonce, hashResult]],
    rejected with what was thrown, the process has exited, or the loop is
    still running. *)
Inductive settled : Type :=
| Fulfilled (nonce : Z) (hashResult : js_string)
| Rejected (e : error)
| Exited (code : Z)
| Pending.

Inductive step : Type :=
| Return (nonce : Z) (hashResult : js_string) (st : state)
| Exit (code : Z) (st : state)
| Continue (st : state).

(** The handler of [process.on('SIGINT', ...)]: [process.exit(1)]. *)
Definition sigint_exit_code : Z := 1.

Section Search.

(** [sigint k] tells whether a SIGINT is waiting when the call reaches its
    [k]-th suspension point; handlers run only while the call is
    suspended. *)
Variable sigint : nat -> bool.

Variable dataPrefix : js_string.
Variable targetPrefix : js_string.

(** The bytes hashed for a nonce. *)
Definition candidate (n : Z) : bytes :=
  let inputData := dataPrefix ++ Number_toString n in
  utf8_encode inputData.

(** One turn of [while (true)]. *)
Definition iteration (st : state) : step :=
  let msg := candidate (nonce st) in
  let hashResult := sha256_hex msg in
  let st1 := State (nonce st) (msg :: hashed st) (stderr st) (checkpoints st) in
  if startsWith hashResult targetPrefix then
    Return (nonce st) hashResult st1
  else
    let nonce' := increment (nonce st) in
    if nonce' mod 1000000 =? 0 then
      let st2 := State nonce' (hashed st1) (nonce' :: stderr st1)
                       (checkpoints st1) in
      if sigint (checkpoints st1) then Exit sigint_exit_code st2
      else Continue (State nonce' (hashed st2) (stderr st2)
                           (S (checkpoints st2)))
    else Continue (State nonce' (hashed st1) (stderr st1) (checkpoints st1)).

(** At most [fuel] turns of the loop. *)
Fixpoint loop (fuel : nat) (st : state) : settled * state :=
  match fuel with
  | O => (Pending, st)
  | S fuel' =>
      match iteration st with
      | Return n h st' => (Fulfilled n h, st')
      | Exit code st' => (Exited code, st')
      | Continue st' => loop fuel' st'
      end
  end.

End Search.

Definition initial : state := State 0 [] [] 0.

(** The body of [findNonceWithLeadingZeros], run for at most [fuel] turns of
    its loop. *)
Definition findNonceWithLeadingZeros (sigint : nat -> bool) (fuel : nat)
    (dataPrefix : js_string) (requiredZeros : Z) : settled * state :=
  match String_repeat (lit "0") requiredZeros with
  | inl e => (Rejected e, initial)
  | inr targetPrefix => loop sigint dataPrefix targetPrefix fuel initial
  end.

(** A call: an argument left out takes its default,
    [dataPrefix = ""] and [requiredZeros = 5]. *)
Definition findNonceWithLeadingZeros_call (sigint : nat -> bool) (fuel : nat)
    (dataPrefix : option js_string) (requiredZeros : option Z)
  : settled * state :=
  findNonceWithLeadingZeros sigint fuel
    (match dataPrefix with Some s => s | None => lit "" end)
    (match requiredZeros with Some z => z | None => 5 end).

(** No interrupt at any suspension point. *)
Definition no_sigint : nat -> bool := fun _ => false.

(** An interrupt sent before the call, waiting at every suspension point. *)
Definition sigint_waiting : nat -> bool := fun _ => true.

(** The match test of the loop, as a predicate on nonces. *)
Definition matches (dataPrefix targetPrefix : js_string) (n : Z) : bool :=
  startsWith (sha256_hex (candidate dataPrefix n)) targetPrefix.

(** The target for [requiredZeros >= 0]. *)
Definition zeros (requiredZeros : Z) : js_string :=
  repeat 48 (Z.to_nat requiredZeros).

(** ** [main] and the script *)

(** What reaches the console: [console.log] with its text, and
    [console.error] with its label and the error it is given (the rendering
    of the error is the engine's). *)
Inductive output : Type :=
| console_log (text : js_string)
| console_error (label : js_string) (e : error).

(** A template literal's text for a boolean. *)
Definition Boolean_toString (b : bool) : js_string :=
  if b then lit "true" else lit "false".

(** [error.message === 'Search interrupted']: the RangeError of
    [String.prototype.repeat] carries another message. *)
Definition is_search_interrupted (e : error) : bool :=
  match e with
  | RangeError => false
  end.

(** The text both the SIGINT handler and the [catch] of [main] log. *)
Definition interrupted_text : js_string :=
  [10; 10] ++ lit "Search interrupted by user.".

(** A run of [main] or of the script: how it stands, the console so far
    (earliest first), and the state of the search. *)
Record execution : Type := Execution {
  result : settled;
  console : list output;
  search : state
}.

(** [main], its search run for at most [fuel] turns.  When the search ends
    the process, the SIGINT handler has logged its line. *)
Definition main (sigint : nat -> bool) (fuel : nat) : execution :=
  let dataPrefix := lit "Hello, World! " in
  let intro :=
    [console_log (lit "Searching for a nonce that produces a SHA256 hash starting with 5 zeros...");
     console_log (lit "Data prefix: '" ++ dataPrefix ++ lit "'");
     console_log (lit "This might take a moment..." ++ [10])] in
  match findNonceWithLeadingZeros sigint fuel dataPrefix 5 with
  | (Fulfilled nonce hashValue, st) =>
      Execution (Fulfilled nonce hashValue)
          (intro ++
           [console_log (lit "Found nonce: " ++ Number_toString nonce);
            console_log (lit "Input data: '"
                         ++ (dataPrefix ++ Number_toString nonce) ++ lit "'");
            console_log (lit "SHA256 hash: " ++ hashValue);
            console_log ([0x2713] ++ lit " Hash starts with '00000': "
                         ++ Boolean_toString
                              (startsWith hashValue (lit "00000")))])
          st
  | (Rejected error, st) =>
      Execution (Exited 1)
          (intro ++
           [if is_search_interrupted error
            then console_log interrupted_text
            else console_error (lit "Error:") error])
          st
  | (Exited code, st) =>
      Execution (Exited code) (intro ++ [console_log interrupted_text]) st
  | (Pending, st) => Execution Pending intro st
  end.

(** The file run as a script ([require.main === module]):
    [main().then(...).catch(...)]. *)
Definition script (sigint : nat -> bool) (fuel : nat) : execution :=
  let r := main sigint fuel in
  match result r with
  | Fulfilled nonce hashValue =>
      Execution (Fulfilled nonce hashValue)
          (console r ++
           [console_log ([10] ++ lit "Successfully found nonce "
                         ++ Number_toString nonce ++ lit " with hash "
                         ++ hashValue)])
          (search r)
  | Rejected error =>
      Execution (Exited 1)
          (console r ++ [console_error (lit "Unexpected error:") error])
          (search r)
  | Exited code => r
  | Pending => r
  end.

(** * Properties *)

(** ** The run-time pieces on known values *)

Example sha256_hex_empty :
  sha256_hex (utf8_encode (lit ""))
  = lit "e3b0c44298fc1c149afbf4c8996fb92427ae41e4649b934ca495991b7852b855".
Proof. vm_compute. reflexivity. Qed.

Example sha256_hex_abc :
  sha256_hex (utf8_encode (lit "abc"))
  = lit "ba7816bf8f01cfea414140de5dae2223b00361a396177a9cb410ff61f20015ad".
Proof. vm_compute. reflexivity. Qed.

Example sha256_hex_two_blocks :
  sha256_hex
    (utf8_encode
       (lit "abcdbcdecdefdefgefghfghighijhijkijkljklmklmnlmnomnopnopq"))
  = lit "248d6a61d20638b8e5c026930c3e6039a33ce45964ff2167f6ecedd419db06c1".
Proof. vm_compute. reflexivity. Qed.

(** "A", U+00E9, U+20AC, the pair of U+1F600, then a high surrogate before
    "0" and a low surrogate alone. *)
Example utf8_encode_sample :
  utf8_encode [0x41; 0xE9; 0x20AC; 0xD83D; 0xDE00; 0xD83D; 0x30; 0xDE00]
  = [0x41; 0xC3; 0xA9; 0xE2; 0x82; 0xAC; 0xF0; 0x9F; 0x98; 0x80;
     0xEF; 0xBF; 0xBD; 0x30; 0xEF; 0xBF; 0xBD].
Proof. reflexivity. Qed.

(** The round constants and the initial chaining value are the ones FIPS
    180-4 derives from the primes. *)
Lemma K_from_primes :
  SHA256.K
  = map (fun p => SHA256.cube_root_from 36 (p * 2 ^ 96) 0 mod 2 ^ 32)
        SHA256.primes.
Proof. vm_compute. reflexivity. Qed.

Lemma H0_from_primes :
  [SHA256.ra SHA256.H0; SHA256.rb SHA256.H0; SHA256.rc SHA256.H0;
   SHA256.rd SHA256.H0; SHA256.re SHA256.H0; SHA256.rf SHA256.H0;
   SHA256.rg SHA256.H0; SHA256.rh SHA256.H0]
  = map (fun p => Z.sqrt (p * 2 ^ 64) mod 2 ^ 32) (firstn 8 SHA256.primes).
Proof. vm_compute. reflexivity. Qed.

Example Number_toString_sample :
  map Number_toString [0; 7; 10; 1000000; MAX_NONCE]
  = [lit "0"; lit "7"; lit "10"; lit "1000000"; lit "9007199254740992"].
Proof. vm_compute. reflexivity. Qed.

Example search_abc_1 :
  fst (findNonceWithLeadingZeros no_sigint 100 (lit "abc") 1)
  = Fulfilled 26
      (lit "0d56d5ce616422904a584cf3735a45ae611817d96c4717b17369ef6778025848").
Proof. vm_compute. reflexivity. Qed.

(** ** The digest text *)




Lemma hex_encode_length (bs : bytes) :
  length (hex_encode bs) = (2 * length bs)%nat.
Proof.
  induction bs as [|b bs IH]; simpl; [reflexivity|].
  rewrite IH. lia.
Qed.


Lemma be_bytes_length (n : nat) (x : Z) : length (SHA256.be_bytes n x) = n.
Proof.
  unfold SHA256.be_bytes.
  now rewrite length_map, length_rev, length_seq.
Qed.

Lemma digest_bytes_length (h : SHA256.regs) :
  length (SHA256.digest_bytes h) = 32%nat.
Proof.
  unfold SHA256.digest_bytes.
  now rewrite !length_app, !be_bytes_length.
Qed.

Lemma sha256_hex_length (msg : bytes) : length (sha256_hex msg) = 64%nat.
Proof.
  unfold sha256_hex.
  now rewrite hex_encode_length, digest_bytes_length.
Qed.


(** ** [startsWith] *)

Lemma startsWith_length (s search : js_string) :
  startsWith s search = true -> (length search <= length s)%nat.
Proof.
  revert s. induction search as [|c search IH]; intros s H; simpl in *.
  - lia.
  - destruct s as [|d s]; [discriminate|].
    apply andb_prop in H. destruct H as [_ H].
    apply IH in H. simpl. lia.
Qed.

Lemma startsWith_nil (s : js_string) : startsWith s [] = true.
Proof. reflexivity. Qed.

Lemma startsWith_firstn (s search : js_string) :
  startsWith s search = true <-> firstn (length search) s = search.
Proof.
  revert s. induction search as [|c search IH]; intros s; simpl.
  - tauto.
  - destruct s as [|d s]; [split; discriminate|].
    rewrite andb_true_iff, Z.eqb_eq, IH. split.
    + intros [-> ->]. reflexivity.
    + intros H. injection H as -> H. auto.
Qed.

Lemma startsWith_zeros (s : js_string) (k : nat) :
  startsWith s (repeat 48 k) = true ->
  forall i, (i < k)%nat -> nth_error s i = Some 48.
Proof.
  revert s. induction k as [|k IH]; intros s H i Hi; [lia|].
  simpl in H. destruct s as [|d s]; [discriminate|].
  apply andb_prop in H. destruct H as [Hd H].
  apply Z.eqb_eq in Hd. subst d.
  destruct i as [|i]; [reflexivity|].
  simpl. apply IH; [exact H | lia].
Qed.

Lemma String_repeat_zeros (k : Z) :
  0 <= k <= MAX_STRING_LENGTH -> String_repeat (lit "0") k = inr (zeros k).
Proof.
  intros Hk. unfold String_repeat, zeros.
  destruct (Z.ltb_spec k 0); [lia|].
  change (Z.of_nat (length (lit "0"))) with 1.
  destruct (Z.ltb_spec MAX_STRING_LENGTH (1 * k)); [lia|].
  f_equal. induction (Z.to_nat k) as [|n IH]; simpl; [reflexivity|].
  now rewrite IH.
Qed.

Lemma String_repeat_negative (s : js_string) (k : Z) :
  k < 0 -> String_repeat s k = inl RangeError.
Proof.
  intros Hk. unfold String_repeat.
  destruct (Z.ltb_spec k 0); [reflexivity | lia].
Qed.

Lemma String_repeat_too_long (k : Z) :
  MAX_STRING_LENGTH < k -> String_repeat (lit "0") k = inl RangeError.
Proof.
  intros Hk. unfold String_repeat.
  destruct (Z.ltb_spec k 0); [reflexivity|].
  change (Z.of_nat (length (lit "0"))) with 1.
  destruct (Z.ltb_spec MAX_STRING_LENGTH (1 * k)); [reflexivity | lia].
Qed.

Lemma zeros_length (k : Z) : length (zeros k) = Z.to_nat k.
Proof. apply repeat_length. Qed.

(** A target longer than the 64 characters of a digest matches nothing. *)
Lemma matches_too_long (dataPrefix : js_string) (k n : Z) :
  64 < k -> matches dataPrefix (zeros k) n = false.
Proof.
  intros Hk. unfold matches.
  destruct (startsWith _ _) eqn:E; [|reflexivity].
  apply startsWith_length in E.
  rewrite sha256_hex_length, zeros_length in E. lia.
Qed.


(** ** [Number_toString] *)

Definition is_digit (c : Z) : Prop := 48 <= c <= 57.

(** The number a string of decimal digits denotes. *)
Definition numeral_value (ds : js_string) : Z :=
  fold_left (fun a c => 10 * a + (c - 48)) ds 0.

Lemma numeral_value_snoc (ds : js_string) (d : Z) :
  numeral_value (ds ++ [d]) = 10 * numeral_value ds + (d - 48).
Proof. unfold numeral_value. now rewrite fold_left_app. Qed.

Lemma digits_from_acc (fuel : nat) (n : Z) (acc : js_string) :
  digits_from fuel n acc = digits_from fuel n [] ++ acc.
Proof.
  revert n acc. induction fuel as [|fuel IH]; intros n acc; simpl.
  - reflexivity.
  - destruct (n <? 10); [reflexivity|].
    rewrite (IH _ (_ :: acc)), (IH _ [_]), <- app_assoc. reflexivity.
Qed.

(** What [digits_from] yields when the fuel covers the digits of [n]: only
    digits, that denote [n], the first of which is 0 for [n = 0] alone. *)
Lemma digits_from_spec (fuel : nat) :
  forall n, 0 <= n < 10 ^ Z.of_nat (S fuel) ->
  Forall is_digit (digits_from (S fuel) n []) /\
  numeral_value (digits_from (S fuel) n []) = n /\
  exists d rest, digits_from (S fuel) n [] = d :: rest /\
                 (d = 48 -> n = 0 /\ rest = []).
Proof.
  induction fuel as [|fuel IH]; intros n Hn.
  - change (10 ^ Z.of_nat 1) with 10 in Hn.
    cbn [digits_from]. destruct (Z.ltb_spec n 10); [|lia].
    rewrite Z.mod_small by lia.
    split; [|split].
    + constructor; [unfold is_digit; lia | constructor].
    + unfold numeral_value. cbn [fold_left]. lia.
    + exists (48 + n), []. split; [reflexivity|]. intros. split; [lia|reflexivity].
  - remember (S fuel) as k eqn:Ek.
    cbn [digits_from]. destruct (Z.ltb_spec n 10) as [Hlt|Hge].
    + rewrite Z.mod_small by lia.
      split; [|split].
      * constructor; [unfold is_digit; lia | constructor].
      * unfold numeral_value. cbn [fold_left]. lia.
      * exists (48 + n), []. split; [reflexivity|]. intros. split; [lia|reflexivity].
    + rewrite digits_from_acc.
      assert (Hq : 0 <= n / 10 < 10 ^ Z.of_nat k).
      { rewrite Nat2Z.inj_succ, Z.pow_succ_r in Hn by lia.
        split; [apply Z.div_pos; lia|].
        apply Z.div_lt_upper_bound; lia. }
      destruct (IH _ Hq) as (Hd & Hv & d & rest & Hhd & Hz).
      pose proof (Z.mod_pos_bound n 10 ltac:(lia)) as Hm.
      split; [|split].
      * apply Forall_app. split; [exact Hd|].
        constructor; [unfold is_digit; lia | constructor].
      * rewrite numeral_value_snoc, Hv.
        pose proof (Z.div_mod n 10 ltac:(lia)). lia.
      * exists d, (rest ++ [48 + n mod 10]). split.
        -- rewrite Hhd. reflexivity.
        -- intros H48. destruct (Hz H48) as [H0 _].
           assert (1 <= n / 10) by (apply Z.div_le_lower_bound; lia). lia.
Qed.

Lemma toString_fuel (n : Z) :
  0 <= n -> 0 <= n < 10 ^ Z.of_nat (S (Z.to_nat (Z.log2 n))).
Proof.
  intros Hn. split; [exact Hn|].
  rewrite Nat2Z.inj_succ, Z2Nat.id by apply Z.log2_nonneg.
  destruct (Z.eq_dec n 0) as [->|Hne]; [reflexivity|].
  destruct (Z.log2_spec n ltac:(lia)) as [_ Hup].
  eapply Z.lt_le_trans; [exact Hup|].
  apply Z.pow_le_mono_l. lia.
Qed.

Lemma Number_toString_digits (n : Z) :
  0 <= n -> Forall is_digit (Number_toString n).
Proof. intros Hn. apply digits_from_spec, toString_fuel, Hn. Qed.

Lemma Number_toString_value (n : Z) :
  0 <= n -> numeral_value (Number_toString n) = n.
Proof. intros Hn. apply digits_from_spec, toString_fuel, Hn. Qed.

Lemma Number_toString_head (n : Z) :
  0 <= n ->
  exists d rest, Number_toString n = d :: rest /\
                 (d = 48 -> n = 0 /\ rest = []).
Proof. intros Hn. apply digits_from_spec, toString_fuel, Hn. Qed.

(** ** [utf8_encode] *)

Lemma utf8_encode_ascii (s : js_string) :
  Forall (fun c => 0 <= c < 128) s -> utf8_encode s = s.
Proof.
  induction 1 as [|c s Hc _ IH]; [reflexivity|].
  cbn [utf8_encode].
  unfold is_high_surrogate, is_low_surrogate, utf8_of_code_point.
  destruct (Z.leb_spec 0xD800 c); [lia|].
  destruct (Z.leb_spec 0xDC00 c); [lia|].
  cbn [andb]. destruct (Z.ltb_spec c 0x80); [|lia].
  rewrite IH. reflexivity.
Qed.

(** Appending a string that does not begin with a low surrogate appends its
    encoding: no surrogate pair forms across the seam. *)
Lemma utf8_encode_app (s t : js_string) :
  match t with
  | [] => True
  | c :: _ => is_low_surrogate c = false
  end ->
  utf8_encode (s ++ t) = utf8_encode s ++ utf8_encode t.
Proof.
  intros Ht.
  assert (H : forall n s, (length s <= n)%nat ->
              utf8_encode (s ++ t) = utf8_encode s ++ utf8_encode t).
  { clear s. induction n as [|n IH]; intros s Hlen.
    - destruct s; [reflexivity | simpl in Hlen; lia].
    - destruct s as [|c rest]; [reflexivity|].
      simpl in Hlen.
      change ((c :: rest) ++ t) with (c :: (rest ++ t)).
      cbn [utf8_encode].
      destruct (is_high_surrogate c).
      + destruct rest as [|d rest'].
        * cbn [app]. destruct t as [|e t']; [reflexivity|].
          rewrite Ht. reflexivity.
        * change ((d :: rest') ++ t) with (d :: (rest' ++ t)).
          cbv iota.
          destruct (is_low_surrogate d).
          -- rewrite (IH rest') by (simpl in Hlen; lia).
             now rewrite app_assoc.
          -- change (d :: (rest' ++ t)) with ((d :: rest') ++ t).
             rewrite (IH (d :: rest')) by lia.
             now rewrite app_assoc.
      + destruct (is_low_surrogate c);
          rewrite (IH rest) by lia; now rewrite app_assoc. }
  apply (H (length s)). lia.
Qed.

Lemma digit_is_ascii (c : Z) : is_digit c -> 0 <= c < 128.
Proof. unfold is_digit. lia. Qed.

(** The bytes hashed for a nonce: the UTF-8 bytes of the prefix, then the
    decimal digits of the nonce. *)
Lemma candidate_bytes (dataPrefix : js_string) (n : Z) :
  0 <= n ->
  candidate dataPrefix n = utf8_encode dataPrefix ++ Number_toString n.
Proof.
  intros Hn. unfold candidate.
  pose proof (Number_toString_digits n Hn) as Hd.
  rewrite utf8_encode_app.
  - f_equal. apply utf8_encode_ascii.
    eapply Forall_impl; [|exact Hd]. intros c. apply digit_is_ascii.
  - destruct (Number_toString n) as [|c ds]; [exact I|].
    apply Forall_inv in Hd. unfold is_digit in Hd.
    unfold is_low_surrogate.
    destruct (Z.leb_spec 0xDC00 c); [lia | reflexivity].
Qed.

(** ** Lists *)


(** ** The counter *)

Lemma increment_below (n : Z) : n < MAX_NONCE -> increment n = n + 1.
Proof. unfold increment. destruct (Z.ltb_spec n MAX_NONCE); lia. Qed.

Lemma increment_stuck (n : Z) : MAX_NONCE <= n -> increment n = n.
Proof. unfold increment. destruct (Z.ltb_spec n MAX_NONCE); lia. Qed.

Lemma increment_min (n : Z) :
  n <= MAX_NONCE -> increment n = Z.min (n + 1) MAX_NONCE.
Proof. unfold increment. destruct (Z.ltb_spec n MAX_NONCE); lia. Qed.

Lemma increment_mono (n : Z) : n <= increment n <= n + 1.
Proof. unfold increment. destruct (Z.ltb_spec n MAX_NONCE); lia. Qed.

(** ** One turn of the loop *)

Section LoopFacts.

Variable sigint : nat -> bool.
Variable dataPrefix : js_string.
Variable targetPrefix : js_string.

Local Abbreviation turn := (iteration sigint dataPrefix targetPrefix).
Local Abbreviation run := (loop sigint dataPrefix targetPrefix).
Local Abbreviation hit := (matches dataPrefix targetPrefix).
Local Abbreviation cand := (candidate dataPrefix).

(** A turn that returns: the nonce of this turn matches. *)
Lemma iteration_Return (st st' : state) (n : Z) (h : js_string) :
  turn st = Return n h st' ->
  hit (nonce st) = true /\ n = nonce st /\
  h = sha256_hex (cand (nonce st)) /\
  st' = State (nonce st) (cand (nonce st) :: hashed st)
              (stderr st) (checkpoints st).
Proof.
  unfold iteration, matches.
  destruct (startsWith _ _).
  - intros H. injection H as <- <- <-. repeat split.
  - destruct (_ =? 0); [destruct (sigint _)|]; discriminate.
Qed.

(** A turn that goes on: no match, the candidate was hashed and the
    counter incremented. *)
Lemma iteration_Continue (st st' : state) :
  turn st = Continue st' ->
  hit (nonce st) = false /\
  nonce st' = increment (nonce st) /\
  hashed st' = cand (nonce st) :: hashed st /\
  (if increment (nonce st) mod 1000000 =? 0
   then sigint (checkpoints st) = false /\
        checkpoints st' = S (checkpoints st) /\
        stderr st' = increment (nonce st) :: stderr st
   else checkpoints st' = checkpoints st /\ stderr st' = stderr st).
Proof.
  unfold iteration, matches.
  destruct (startsWith _ _); [discriminate|].
  cbn [nonce hashed stderr checkpoints].
  destruct (_ =? 0).
  - destruct (sigint _) eqn:Es; [discriminate|].
    intros H. injection H as <-. cbn. repeat split.
  - intros H. injection H as <-. cbn. repeat split.
Qed.

(** A turn that ends the process: no match, and the interrupt was waiting
    at the suspension point after a 1,000,000th nonce. *)
Lemma iteration_Exit (st st' : state) (code : Z) :
  turn st = Exit code st' ->
  hit (nonce st) = false /\
  code = sigint_exit_code /\
  increment (nonce st) mod 1000000 = 0 /\
  sigint (checkpoints st) = true /\
  nonce st' = increment (nonce st) /\
  hashed st' = cand (nonce st) :: hashed st.
Proof.
  unfold iteration, matches.
  destruct (startsWith _ _); [discriminate|].
  cbn [nonce hashed stderr checkpoints].
  destruct (Z.eqb_spec (increment (nonce st) mod 1000000) 0); [|discriminate].
  destruct (sigint _) eqn:Es; [|discriminate].
  intros H. injection H as <- <-. cbn. repeat split; assumption.
Qed.

Lemma iteration_match (st : state) :
  hit (nonce st) = true ->
  turn st =
    Return (nonce st) (sha256_hex (cand (nonce st)))
      (State (nonce st) (cand (nonce st) :: hashed st)
             (stderr st) (checkpoints st)).
Proof.
  unfold iteration, matches. intros ->. reflexivity.
Qed.

(** Without a match, a turn goes on unless it reaches a suspension point
    where the interrupt waits. *)
Lemma iteration_no_match (st : state) :
  hit (nonce st) = false ->
  (increment (nonce st) mod 1000000 = 0 -> sigint (checkpoints st) = false) ->
  exists st', turn st = Continue st'.
Proof.
  unfold iteration, matches. intros -> Hs.
  destruct (Z.eqb_spec (increment (nonce st) mod 1000000) 0) as [E|E].
  - cbn [checkpoints]. rewrite (Hs E). eauto.
  - eauto.
Qed.

Lemma iteration_interrupted (st : state) :
  hit (nonce st) = false ->
  increment (nonce st) mod 1000000 = 0 ->
  sigint (checkpoints st) = true ->
  exists st', turn st = Exit sigint_exit_code st'.
Proof.
  unfold iteration, matches. intros -> E Hs.
  rewrite E. cbn [Z.eqb checkpoints]. rewrite Hs. eauto.
Qed.

(** ** The loop *)

(** The loop throws nothing. *)
Lemma loop_not_Rejected (fuel : nat) (st : state) (e : error) :
  fst (run fuel st) <> Rejected e.
Proof.
  revert st. induction fuel as [|fuel IH]; intros st; cbn [loop].
  - discriminate.
  - destruct (turn st); try discriminate. apply IH.
Qed.

(** What a returned pair is: the first match at or after the counter. *)
Lemma loop_Fulfilled (fuel : nat) :
  forall st st' n h,
  run fuel st = (Fulfilled n h, st') ->
  nonce st <= n /\ hit n = true /\ h = sha256_hex (cand n) /\
  forall k, nonce st <= k < n -> hit k = false.
Proof.
  induction fuel as [|fuel IH]; intros st st' n h; cbn [loop].
  - discriminate.
  - destruct (turn st) as [n0 h0 st0|code st0|st0] eqn:E.
    + intros H. injection H as <- <- <-.
      apply iteration_Return in E. destruct E as (Hm & -> & -> & _).
      repeat split; auto; lia.
    + discriminate.
    + intros H. apply IH in H. destruct H as (Hle & Hm & Hh & Hmin).
      apply iteration_Continue in E. destruct E as (Hno & Hn & _).
      pose proof (increment_mono (nonce st)).
      rewrite Hn in Hle, Hmin.
      repeat split; auto; [lia|].
      intros k Hk.
      destruct (Z.eq_dec k (nonce st)) as [->|Hne]; [exact Hno|].
      apply Hmin. lia.
Qed.

(** Every input hashed during the loop is the candidate of a nonce. *)
Lemma loop_hashed (fuel : nat) :
  forall st msg,
  0 <= nonce st <= MAX_NONCE ->
  In msg (hashed (snd (run fuel st))) ->
  In msg (hashed st) \/
  exists n, nonce st <= n <= MAX_NONCE /\ msg = cand n.
Proof.
  induction fuel as [|fuel IH]; intros st msg Hr; cbn [loop].
  - auto.
  - pose proof (increment_mono (nonce st)) as Hi.
    assert (Hi' : increment (nonce st) <= MAX_NONCE).
    { rewrite increment_min; lia. }
    destruct (turn st) as [n0 h0 st0|code st0|st0] eqn:E; cbn [snd].
    + apply iteration_Return in E. destruct E as (_ & _ & _ & ->).
      cbn [hashed]. intros [<-|H]; [right|left; exact H].
      exists (nonce st). split; [lia|reflexivity].
    + apply iteration_Exit in E. destruct E as (_ & _ & _ & _ & _ & ->).
      intros [<-|H]; [right|left; exact H].
      exists (nonce st). split; [lia|reflexivity].
    + apply iteration_Continue in E. destruct E as (_ & Hn & Hh & _).
      intros H. apply IH in H; [|lia].
      rewrite Hh, Hn in H. destruct H as [[<-|H]|(n & Hrange & ->)].
      * right. exists (nonce st). split; [lia|reflexivity].
      * left. exact H.
      * right. exists n. split; [lia|reflexivity].
Qed.

End LoopFacts.

(** ** How far the loop gets *)

Section LoopProgress.

Variable sigint : nat -> bool.
Variable dataPrefix : js_string.
Variable targetPrefix : js_string.

Local Abbreviation turn := (iteration sigint dataPrefix targetPrefix).
Local Abbreviation run := (loop sigint dataPrefix targetPrefix).
Local Abbreviation hit := (matches dataPrefix targetPrefix).
Local Abbreviation cand := (candidate dataPrefix).

(** The loop reaches the first match [m], [j] nonces ahead, when no
    interrupt waits at a suspension point on the way. *)
Lemma loop_finds (j : nat) :
  forall st m,
  m = nonce st + Z.of_nat j -> m <= MAX_NONCE ->
  (forall k, nonce st <= k < m -> hit k = false) ->
  hit m = true ->
  (forall k c, nonce st < k <= m -> k mod 1000000 = 0 -> sigint c = false) ->
  forall fuel, (j < fuel)%nat ->
  fst (run fuel st) = Fulfilled m (sha256_hex (cand m)) /\
  length (hashed (snd (run fuel st))) = (length (hashed st) + S j)%nat.
Proof.
  induction j as [|j IH]; intros st m Hm Hmax Hno Hhit Hsig fuel Hfuel;
    (destruct fuel as [|fuel]; [lia|]); cbn [loop].
  - replace m with (nonce st) in * by lia.
    rewrite (iteration_match _ _ _ _ Hhit). cbn. split; [reflexivity | lia].
  - assert (Hlt : nonce st < MAX_NONCE) by lia.
    pose proof (increment_below _ Hlt) as Hinc.
    destruct (iteration_no_match sigint dataPrefix targetPrefix st) as [st' E].
    + apply Hno. lia.
    + rewrite Hinc. intros H0. apply (Hsig (nonce st + 1)); [lia | exact H0].
    + rewrite E.
      apply iteration_Continue in E. destruct E as (_ & Hn & Hh & _).
      rewrite Hinc in Hn.
      destruct (IH st' m) with (fuel := fuel) as [Hf Hl].
      * lia.
      * exact Hmax.
      * intros k Hk. apply Hno. lia.
      * exact Hhit.
      * intros k c Hk. apply Hsig. lia.
      * lia.
      * split; [exact Hf|]. rewrite Hl, Hh. cbn [length]. lia.
Qed.


(** With no match among the first 1,000,000 nonces and the interrupt
    waiting, the process exits at the first suspension point. *)
Lemma loop_interrupted (j : nat) :
  forall st,
  0 <= nonce st -> nonce st + Z.of_nat j + 1 = 1000000 ->
  (forall k, nonce st <= k < 1000000 -> hit k = false) ->
  sigint (checkpoints st) = true ->
  forall fuel, (j < fuel)%nat ->
  exists st',
    run fuel st = (Exited sigint_exit_code, st') /\
    nonce st' = 1000000 /\
    length (hashed st') = (length (hashed st) + S j)%nat.
Proof.
  induction j as [|j IH]; intros st H0 Hj Hno Hsig fuel Hfuel;
    (destruct fuel as [|fuel]; [lia|]); cbn [loop].
  - assert (Hinc : increment (nonce st) = 1000000).
    { rewrite increment_below by (unfold MAX_NONCE; lia). lia. }
    destruct (iteration_interrupted sigint dataPrefix targetPrefix st)
      as [st' E].
    + apply Hno. lia.
    + rewrite Hinc. reflexivity.
    + exact Hsig.
    + rewrite E. exists st'. split; [reflexivity|].
      apply iteration_Exit in E. destruct E as (_ & _ & _ & _ & Hn & Hh).
      split; [lia|]. rewrite Hh. cbn [length]. lia.
  - assert (Hinc : increment (nonce st) = nonce st + 1).
    { apply increment_below. unfold MAX_NONCE. lia. }
    assert (Hmod : (nonce st + 1) mod 1000000 <> 0).
    { rewrite Z.mod_small; lia. }
    destruct (iteration_no_match sigint dataPrefix targetPrefix st)
      as [st' E].
    + apply Hno. lia.
    + rewrite Hinc. intros H. contradiction.
    + rewrite E.
      apply iteration_Continue in E. destruct E as (_ & Hn & Hh & Hc).
      rewrite Hinc in Hn, Hc.
      destruct (Z.eqb_spec ((nonce st + 1) mod 1000000) 0) as [|_];
        [contradiction|].
      destruct Hc as [Hc _].
      destruct (IH st') with (fuel := fuel) as (st'' & Hrun & Hn'' & Hh'').
      * lia.
      * lia.
      * intros k Hk. apply Hno. lia.
      * rewrite Hc. exact Hsig.
      * lia.
      * exists st''. split; [exact Hrun|]. split; [exact Hn''|].
        rewrite Hh'', Hh. cbn [length]. lia.
Qed.

End LoopProgress.

(** Below any bound, either nothing matches or there is a first match. *)
Lemma first_match_below (dataPrefix targetPrefix : js_string) (b : nat) :
  (forall k, 0 <= k < Z.of_nat b -> matches dataPrefix targetPrefix k = false) \/
  exists n, 0 <= n < Z.of_nat b /\
            matches dataPrefix targetPrefix n = true /\
            forall k, 0 <= k < n -> matches dataPrefix targetPrefix k = false.
Proof.
  induction b as [|b [IH|(n & Hn & Hhit & Hmin)]].
  - left. intros k Hk. lia.
  - destruct (matches dataPrefix targetPrefix (Z.of_nat b)) eqn:E.
    + right. exists (Z.of_nat b). split; [lia|]. split; [exact E|].
      intros k Hk. apply IH. lia.
    + left. intros k Hk.
      destruct (Z.eq_dec k (Z.of_nat b)) as [->|Hne]; [exact E|].
      apply IH. lia.
  - right. exists n. split; [lia|]. split; assumption.
Qed.

(** A match at [m] has a first match at or below it. *)
Lemma first_match (dataPrefix targetPrefix : js_string) (m : Z) :
  0 <= m -> matches dataPrefix targetPrefix m = true ->
  exists n, 0 <= n <= m /\ matches dataPrefix targetPrefix n = true /\
            forall k, 0 <= k < n -> matches dataPrefix targetPrefix k = false.
Proof.
  intros Hm Hhit.
  destruct (first_match_below dataPrefix targetPrefix (Z.to_nat m))
    as [Hno|(n & Hn & Hhit' & Hmin)].
  - exists m. split; [lia|]. split; [exact Hhit|].
    intros k Hk. apply Hno. lia.
  - exists n. split; [lia|]. split; assumption.
Qed.

(** ** The match condition, on the digest text *)

(** The digest text of the candidate of nonce [n]. *)
Definition digest_of (dataPrefix : js_string) (n : Z) : js_string :=
  sha256_hex (utf8_encode dataPrefix ++ Number_toString n).

(** The first [k] characters of [h] are all '0'. *)
Definition leading_zeros (k : Z) (h : js_string) : Prop :=
  firstn (Z.to_nat k) h = repeat 48 (Z.to_nat k).

Lemma matches_leading_zeros (dataPrefix : js_string) (k n : Z) :
  0 <= n ->
  matches dataPrefix (zeros k) n = true <->
  leading_zeros k (digest_of dataPrefix n).
Proof.
  intros Hn. unfold matches, leading_zeros, digest_of.
  rewrite candidate_bytes by exact Hn.
  rewrite startsWith_firstn, zeros_length. reflexivity.
Qed.

Lemma no_match_not_leading_zeros (dataPrefix : js_string) (k n : Z) :
  0 <= n ->
  matches dataPrefix (zeros k) n = false <->
  ~ leading_zeros k (digest_of dataPrefix n).
Proof.
  intros Hn. rewrite <- matches_leading_zeros by exact Hn.
  destruct (matches _ _ _); split; congruence.
Qed.


(** ** The call *)

Lemma findNonce_nonneg (sigint : nat -> bool) (fuel : nat)
    (dataPrefix : js_string) (requiredZeros : Z) :
  0 <= requiredZeros <= MAX_STRING_LENGTH ->
  findNonceWithLeadingZeros sigint fuel dataPrefix requiredZeros =
  loop sigint dataPrefix (zeros requiredZeros) fuel initial.
Proof.
  intros Hz. unfold findNonceWithLeadingZeros.
  now rewrite String_repeat_zeros.
Qed.

Lemma findNonce_negative (sigint : nat -> bool) (fuel : nat)
    (dataPrefix : js_string) (requiredZeros : Z) :
  requiredZeros < 0 ->
  findNonceWithLeadingZeros sigint fuel dataPrefix requiredZeros =
  (Rejected RangeError, initial).
Proof.
  intros Hz. unfold findNonceWithLeadingZeros.
  now rewrite String_repeat_negative.
Qed.

Lemma findNonce_too_long (sigint : nat -> bool) (fuel : nat)
    (dataPrefix : js_string) (requiredZeros : Z) :
  MAX_STRING_LENGTH < requiredZeros ->
  findNonceWithLeadingZeros sigint fuel dataPrefix requiredZeros =
  (Rejected RangeError, initial).
Proof.
  intros Hz. unfold findNonceWithLeadingZeros.
  now rewrite String_repeat_too_long.
Qed.

(** A call is rejected before its loop, or is its loop. *)
Lemma findNonce_cases (sigint : nat -> bool) (fuel : nat)
    (dataPrefix : js_string) (requiredZeros : Z) :
  ((requiredZeros < 0 \/ MAX_STRING_LENGTH < requiredZeros) /\
   findNonceWithLeadingZeros sigint fuel dataPrefix requiredZeros
     = (Rejected RangeError, initial)) \/
  (0 <= requiredZeros <= MAX_STRING_LENGTH /\
   findNonceWithLeadingZeros sigint fuel dataPrefix requiredZeros
     = loop sigint dataPrefix (zeros requiredZeros) fuel initial).
Proof.
  destruct (Z.lt_ge_cases requiredZeros 0) as [Hneg|Hz].
  - left. split; [left; exact Hneg|]. now apply findNonce_negative.
  - destruct (Z.lt_ge_cases MAX_STRING_LENGTH requiredZeros) as [Hbig|Hle].
    + left. split; [right; exact Hbig|]. now apply findNonce_too_long.
    + right. split; [lia|]. apply findNonce_nonneg. lia.
Qed.

(** A fulfilled call had [requiredZeros >= 0] and returns the first match. *)
Lemma findNonce_Fulfilled (sigint : nat -> bool) (fuel : nat)
    (dataPrefix : js_string) (requiredZeros n : Z) (h : js_string) :
  fst (findNonceWithLeadingZeros sigint fuel dataPrefix requiredZeros)
    = Fulfilled n h ->
  0 <= requiredZeros /\ 0 <= n /\
  h = digest_of dataPrefix n /\
  leading_zeros requiredZeros h /\
  forall k, 0 <= k < n ->
            ~ leading_zeros requiredZeros (digest_of dataPrefix k).
Proof.
  intros H.
  destruct (findNonce_cases sigint fuel dataPrefix requiredZeros)
    as [[_ Hr]|[[Hz _] Hr]]; rewrite Hr in H; [discriminate|].
  destruct (loop _ _ _ _ _) as [out st] eqn:E. cbn [fst] in H. subst out.
  apply loop_Fulfilled in E. cbn [nonce initial] in E.
  destruct E as (Hn & Hhit & Hh & Hmin).
  assert (Hd : h = digest_of dataPrefix n).
  { rewrite Hh. unfold digest_of. now rewrite candidate_bytes. }
  split; [exact Hz|]. split; [exact Hn|]. split; [exact Hd|]. split.
  - rewrite Hd. apply matches_leading_zeros; assumption.
  - intros k Hk. apply no_match_not_leading_zeros; [lia|]. apply Hmin, Hk.
Qed.

(** * The claims *)



(** C2.  The nonce of a returned pair is the smallest match: it is not
    negative, and no nonce below it has a digest text whose first
    [requiredZeros] characters are all '0'. *)
Theorem found_nonce_is_smallest (sigint : nat -> bool) (fuel : nat)
    (dataPrefix : js_string) (requiredZeros n : Z) (digestHex : js_string) :
  fst (findNonceWithLeadingZeros sigint fuel dataPrefix requiredZeros)
    = Fulfilled n digestHex ->
  0 <= n /\
  leading_zeros requiredZeros (digest_of dataPrefix n) /\
  forall k, 0 <= k < n ->
            ~ leading_zeros requiredZeros (digest_of dataPrefix k).
Proof.
  intros H. apply findNonce_Fulfilled in H.
  destruct H as (_ & Hn & Hd & Hlead & Hmin).
  rewrite Hd in Hlead. auto.
Qed.

Lemma found_nonce_is_smallest_witness :
  fst (findNonceWithLeadingZeros no_sigint 27 (lit "abc") 1)
    = Fulfilled 26
        (lit "0d56d5ce616422904a584cf3735a45ae611817d96c4717b17369ef6778025848") /\
  0 <= 26 /\
  leading_zeros 1 (digest_of (lit "abc") 26) /\
  forall k, 0 <= k < 26 -> ~ leading_zeros 1 (digest_of (lit "abc") k).
Proof.
  assert (H : fst (findNonceWithLeadingZeros no_sigint 27 (lit "abc") 1)
    = Fulfilled 26
        (lit "0d56d5ce616422904a584cf3735a45ae611817d96c4717b17369ef6778025848")).
  { vm_compute. reflexivity. }
  split; [exact H|].
  exact (found_nonce_is_smallest no_sigint 27 (lit "abc") 1 26 _ H).
Defined.












(** C6.  Every input given to SHA-256 during a call is the UTF-8 bytes of
    the prefix followed at once by the decimal numeral of a nonce of the
    counter's range: ASCII digits only (no sign, no separator), denoting
    the nonce, with a first digit that is '0' only in the numeral "0". *)
Theorem hashed_bytes_are_prefix_then_digits (sigint : nat -> bool)
    (fuel : nat) (dataPrefix : js_string) (requiredZeros : Z) (msg : bytes) :
  In msg (hashed (snd (findNonceWithLeadingZeros sigint fuel dataPrefix
                         requiredZeros))) ->
  exists n digits,
    0 <= n <= MAX_NONCE /\
    digits = Number_toString n /\
    msg = utf8_encode dataPrefix ++ digits /\
    Forall is_digit digits /\
    numeral_value digits = n /\
    exists d rest, digits = d :: rest /\ (d = 48 -> rest = []).
Proof.
  intros Hin.
  destruct (findNonce_cases sigint fuel dataPrefix requiredZeros)
    as [[_ Hr]|[_ Hr]]; rewrite Hr in Hin; [destruct Hin|].
  apply loop_hashed in Hin; [|cbn [nonce initial]; unfold MAX_NONCE; lia].
  destruct Hin as [[]|(n & Hn & ->)]. cbn [nonce initial] in Hn.
  exists n, (Number_toString n).
  split; [exact Hn|]. split; [reflexivity|].
  split; [apply candidate_bytes; lia|].
  split; [apply Number_toString_digits; lia|].
  split; [apply Number_toString_value; lia|].
  destruct (Number_toString_head n) as (d & rest & Hd & H48); [lia|].
  exists d, rest. split; [exact Hd|]. intros H. apply H48, H.
Qed.

Lemma hashed_bytes_are_prefix_then_digits_witness :
  In (lit "abc10")
     (hashed (snd (findNonceWithLeadingZeros no_sigint 11 (lit "abc") 1))) /\
  exists n digits,
    0 <= n <= MAX_NONCE /\
    digits = Number_toString n /\
    lit "abc10" = utf8_encode (lit "abc") ++ digits /\
    Forall is_digit digits /\
    numeral_value digits = n /\
    exists d rest, digits = d :: rest /\ (d = 48 -> rest = []).
Proof.
  assert (H : In (lit "abc10")
     (hashed (snd (findNonceWithLeadingZeros no_sigint 11 (lit "abc") 1)))).
  { vm_compute. left. reflexivity. }
  split; [exact H|].
  apply (hashed_bytes_are_prefix_then_digits no_sigint 11 (lit "abc") 1 _ H).
Defined.

(** C7.  The returned pair is a function of [(prefix, requiredZeros)]
    alone: two calls that both return, whatever the number of turns each
    was given and whatever happened at their suspension points, return the
    same nonce and the same digest text. *)
Theorem result_is_deterministic (sigint1 sigint2 : nat -> bool)
    (fuel1 fuel2 : nat) (dataPrefix : js_string) (requiredZeros : Z)
    (n1 n2 : Z) (h1 h2 : js_string) :
  fst (findNonceWithLeadingZeros sigint1 fuel1 dataPrefix requiredZeros)
    = Fulfilled n1 h1 ->
  fst (findNonceWithLeadingZeros sigint2 fuel2 dataPrefix requiredZeros)
    = Fulfilled n2 h2 ->
  n1 = n2 /\ h1 = h2.
Proof.
  intros H1 H2.
  apply findNonce_Fulfilled in H1. destruct H1 as (_ & Hn1 & Hd1 & Hl1 & Hm1).
  apply findNonce_Fulfilled in H2. destruct H2 as (_ & Hn2 & Hd2 & Hl2 & Hm2).
  rewrite Hd1 in Hl1. rewrite Hd2 in Hl2.
  assert (n1 = n2) as ->.
  { destruct (Z.lt_trichotomy n1 n2) as [Hlt|[Heq|Hgt]]; [|exact Heq|].
    - exfalso. apply (Hm2 n1); [lia | exact Hl1].
    - exfalso. apply (Hm1 n2); [lia | exact Hl2]. }
  split; [reflexivity | congruence].
Qed.

Lemma result_is_deterministic_witness :
  fst (findNonceWithLeadingZeros no_sigint 27 (lit "abc") 1)
    = Fulfilled 26
        (lit "0d56d5ce616422904a584cf3735a45ae611817d96c4717b17369ef6778025848") /\
  fst (findNonceWithLeadingZeros sigint_waiting 40 (lit "abc") 1)
    = Fulfilled 26
        (lit "0d56d5ce616422904a584cf3735a45ae611817d96c4717b17369ef6778025848") /\
  26 = 26 /\
  lit "0d56d5ce616422904a584cf3735a45ae611817d96c4717b17369ef6778025848"
    = lit "0d56d5ce616422904a584cf3735a45ae611817d96c4717b17369ef6778025848".
Proof.
  assert (H1 : fst (findNonceWithLeadingZeros no_sigint 27 (lit "abc") 1)
    = Fulfilled 26
        (lit "0d56d5ce616422904a584cf3735a45ae611817d96c4717b17369ef6778025848")).
  { vm_compute. reflexivity. }
  assert (H2 : fst (findNonceWithLeadingZeros sigint_waiting 40 (lit "abc") 1)
    = Fulfilled 26
        (lit "0d56d5ce616422904a584cf3735a45ae611817d96c4717b17369ef6778025848")).
  { vm_compute. reflexivity. }
  split; [exact H1|]. split; [exact H2|].
  exact (result_is_deterministic _ _ _ _ _ _ _ _ _ _ H1 H2).
Defined.


(** C9.  A call with both arguments left out is the call with
    [dataPrefix = ""] and [requiredZeros = 5]. *)
Theorem omitted_arguments_take_defaults (sigint : nat -> bool) (fuel : nat) :
  findNonceWithLeadingZeros_call sigint fuel None None
    = findNonceWithLeadingZeros_call sigint fuel (Some (lit "")) (Some 5) /\
  findNonceWithLeadingZeros_call sigint fuel None None
    = findNonceWithLeadingZeros sigint fuel [] 5.
Proof. split; reflexivity. Qed.

(** C10.  A negative [requiredZeros] makes ["0".repeat] throw a RangeError:
    the call is rejected with it whatever the prefix, before the loop is
    entered, so no digest was computed, no suspension point was passed, and
    nothing is returned. *)
Theorem negative_zeros_rejected (sigint : nat -> bool) (fuel : nat)
    (dataPrefix : js_string) (requiredZeros : Z) :
  requiredZeros < 0 ->
  fst (findNonceWithLeadingZeros sigint fuel dataPrefix requiredZeros)
    = Rejected RangeError /\
  hashed (snd (findNonceWithLeadingZeros sigint fuel dataPrefix requiredZeros))
    = [] /\
  checkpoints
    (snd (findNonceWithLeadingZeros sigint fuel dataPrefix requiredZeros))
    = 0%nat.
Proof.
  intros Hneg. rewrite findNonce_negative by exact Hneg.
  repeat split.
Qed.

Lemma negative_zeros_rejected_witness :
  -1 < 0 /\
  fst (findNonceWithLeadingZeros no_sigint 5 (lit "abc") (-1))
    = Rejected RangeError /\
  hashed (snd (findNonceWithLeadingZeros no_sigint 5 (lit "abc") (-1)))
    = [] /\
  checkpoints (snd (findNonceWithLeadingZeros no_sigint 5 (lit "abc") (-1)))
    = 0%nat.
Proof.
  split; [lia|].
  apply (negative_zeros_rejected no_sigint 5 (lit "abc") (-1)). lia.
Defined.

(** * Further properties of the search *)

(** ** Rejection *)


(** ** Interrupts and results *)

(** A turn under any interrupt schedule is the turn without interrupts,
    unless it ends the process with status 1. *)
Lemma iteration_sigint (sigint : nat -> bool)
    (dataPrefix targetPrefix : js_string) (st : state) :
  iteration sigint dataPrefix targetPrefix st
    = iteration no_sigint dataPrefix targetPrefix st \/
  exists st', iteration sigint dataPrefix targetPrefix st = Exit 1 st'.
Proof.
  unfold iteration.
  destruct (startsWith _ _); [left; reflexivity|].
  destruct (_ =? 0); [|left; reflexivity].
  cbn [checkpoints]. destruct (sigint _).
  - right. eexists. reflexivity.
  - left. reflexivity.
Qed.

Lemma loop_sigint (sigint : nat -> bool)
    (dataPrefix targetPrefix : js_string) (fuel : nat) :
  forall st,
  loop sigint dataPrefix targetPrefix fuel st
    = loop no_sigint dataPrefix targetPrefix fuel st \/
  exists st', loop sigint dataPrefix targetPrefix fuel st = (Exited 1, st').
Proof.
  induction fuel as [|fuel IH]; intros st; cbn [loop].
  - left. reflexivity.
  - destruct (iteration_sigint sigint dataPrefix targetPrefix st)
      as [E|[st' E]]; rewrite E.
    + destruct (iteration no_sigint dataPrefix targetPrefix st)
        as [n h st'|code st'|st']; try (left; reflexivity).
      apply IH.
    + right. exists st'. reflexivity.
Qed.

(** Whatever interrupts are sent, a call does what the uninterrupted call
    does (same outcome, same digests, same reports) or the process has
    exited with status 1: an interrupt never changes a returned pair. *)
Theorem interrupt_only_exits (sigint : nat -> bool) (fuel : nat)
    (dataPrefix : js_string) (requiredZeros : Z) :
  findNonceWithLeadingZeros sigint fuel dataPrefix requiredZeros
    = findNonceWithLeadingZeros no_sigint fuel dataPrefix requiredZeros \/
  exists st,
    findNonceWithLeadingZeros sigint fuel dataPrefix requiredZeros
      = (Exited 1, st).
Proof.
  unfold findNonceWithLeadingZeros.
  destruct (String_repeat _ _) as [e|targetPrefix]; [left; reflexivity|].
  apply loop_sigint.
Qed.

(** ** What a call has done: digests, reports, suspensions *)

(** The counts reported once the counter stands at [n]: the positive
    multiples of 1,000,000 up to [n], latest first. *)
Definition progress_counts (n : Z) : list Z :=
  map (fun i => 1000000 * Z.of_nat i) (rev (seq 1 (Z.to_nat (n / 1000000)))).

Lemma progress_counts_report (n : Z) :
  0 <= n -> (n + 1) mod 1000000 = 0 ->
  (n + 1) / 1000000 = n / 1000000 + 1 /\
  progress_counts (n + 1) = (n + 1) :: progress_counts n.
Proof.
  intros Hn Hmod.
  assert (Hq : (n + 1) / 1000000 = n / 1000000 + 1).
  { Z.div_mod_to_equations. lia. }
  split; [exact Hq|].
  unfold progress_counts. rewrite Hq.
  assert (H0 : 0 <= n / 1000000) by (apply Z.div_pos; lia).
  replace (Z.to_nat (n / 1000000 + 1)) with (S (Z.to_nat (n / 1000000))) by lia.
  rewrite seq_S, rev_app_distr. cbn [rev app map]. f_equal.
  Z.div_mod_to_equations. lia.
Qed.

Lemma progress_counts_silent (n : Z) :
  0 <= n -> (n + 1) mod 1000000 <> 0 ->
  (n + 1) / 1000000 = n / 1000000 /\
  progress_counts (n + 1) = progress_counts n.
Proof.
  intros Hn Hmod.
  assert (Hq : (n + 1) / 1000000 = n / 1000000).
  { Z.div_mod_to_equations. lia. }
  split; [exact Hq|]. unfold progress_counts. now rewrite Hq.
Qed.

Lemma progress_counts_none (n : Z) :
  0 <= n < 1000000 -> progress_counts n = [].
Proof.
  intros Hn. unfold progress_counts.
  rewrite Z.div_small by exact Hn. reflexivity.
Qed.

Lemma MAX_NONCE_not_reported : MAX_NONCE mod 1000000 <> 0.
Proof. vm_compute. discriminate. Qed.

Section LoopRecord.

Variable sigint : nat -> bool.
Variable dataPrefix : js_string.
Variable targetPrefix : js_string.

Local Abbreviation turn' := (iteration sigint dataPrefix targetPrefix).
Local Abbreviation run' := (loop sigint dataPrefix targetPrefix).
Local Abbreviation hit' := (matches dataPrefix targetPrefix).
Local Abbreviation cand' := (fun i : nat => candidate dataPrefix (Z.of_nat i)).

(** The record of a state agrees with its counter: the reports are those
    due, one suspension was taken per report, and the candidates of the
    nonces below the counter were hashed, in order, once each (until the
    counter stands still at 2^53 on a candidate that does not match). *)
Definition consistent (st : state) : Prop :=
  0 <= nonce st <= MAX_NONCE /\
  stderr st = progress_counts (nonce st) /\
  Z.of_nat (checkpoints st) = nonce st / 1000000 /\
  (rev (hashed st) = map cand' (seq 0 (Z.to_nat (nonce st))) \/
   (nonce st = MAX_NONCE /\ hit' MAX_NONCE = false)).

Lemma initial_consistent : consistent initial.
Proof.
  unfold consistent, MAX_NONCE. cbn [nonce stderr checkpoints hashed initial].
  repeat split; try lia. left. reflexivity.
Qed.

Lemma hashed_next (st : state) :
  0 <= nonce st ->
  rev (hashed st) = map cand' (seq 0 (Z.to_nat (nonce st))) ->
  rev (candidate dataPrefix (nonce st) :: hashed st)
    = map cand' (seq 0 (Z.to_nat (nonce st + 1))).
Proof.
  intros Hn Hh.
  replace (Z.to_nat (nonce st + 1)) with (S (Z.to_nat (nonce st))) by lia.
  rewrite seq_S, map_app. cbn [rev map]. rewrite Hh. cbn [Nat.add].
  now rewrite Z2Nat.id by exact Hn.
Qed.

Lemma iteration_Exit_record (st st' : state) (code : Z) :
  turn' st = Exit code st' ->
  stderr st' = increment (nonce st) :: stderr st /\
  checkpoints st' = checkpoints st.
Proof.
  unfold iteration.
  destruct (startsWith _ _); [discriminate|].
  cbn [nonce hashed stderr checkpoints].
  destruct (_ =? 0); [|discriminate].
  destruct (sigint _); [|discriminate].
  intros H. injection H as <- <-. split; reflexivity.
Qed.

Lemma Continue_consistent (st st' : state) :
  consistent st -> turn' st = Continue st' -> consistent st'.
Proof.
  intros (Hr & Herr & Hcp & Hh) E.
  apply iteration_Continue in E. destruct E as (Hno & Hn & Hhd & Hif).
  destruct (Z.eq_dec (nonce st) MAX_NONCE) as [Hmax|Hlt].
  - rewrite increment_stuck in Hn, Hif by lia.
    rewrite Hmax in Hif.
    destruct (Z.eqb_spec (MAX_NONCE mod 1000000) 0) as [E0|_];
      [destruct (MAX_NONCE_not_reported E0)|].
    destruct Hif as [Hc He].
    unfold consistent. rewrite Hn, He, Hc.
    repeat split; try lia; try assumption.
    right. rewrite Hmax in Hno. split; [lia | exact Hno].
  - rewrite increment_below in Hn, Hif by lia.
    destruct Hh as [Hh|[Hmax _]]; [|contradiction].
    unfold consistent. rewrite Hn, Hhd.
    split; [lia|].
    destruct (Z.eqb_spec ((nonce st + 1) mod 1000000) 0) as [E0|E0].
    + destruct Hif as (_ & Hc & He).
      destruct (progress_counts_report (nonce st)) as [Hq Hp]; [lia|exact E0|].
      rewrite He, Hc, Hp, Hq, <- Herr.
      split; [reflexivity|]. split; [lia|].
      left. apply hashed_next; [lia | exact Hh].
    + destruct Hif as (Hc & He).
      destruct (progress_counts_silent (nonce st)) as [Hq Hp]; [lia|exact E0|].
      rewrite He, Hc, Hp, Hq.
      split; [exact Herr|]. split; [exact Hcp|].
      left. apply hashed_next; [lia | exact Hh].
Qed.

(** A call that returns [n]: the candidates of 0 .. [n] were hashed, in
    order and once each; the reports and suspensions are those due at [n]. *)
Lemma loop_Fulfilled_record (fuel : nat) :
  forall st st' n h,
  consistent st ->
  run' fuel st = (Fulfilled n h, st') ->
  0 <= n <= MAX_NONCE /\ nonce st' = n /\
  stderr st' = progress_counts n /\
  Z.of_nat (checkpoints st') = n / 1000000 /\
  rev (hashed st') = map cand' (seq 0 (S (Z.to_nat n))).
Proof.
  induction fuel as [|fuel IH]; intros st st' n h Hc; cbn [loop].
  - discriminate.
  - destruct (turn' st) as [n0 h0 st0|code st0|st0] eqn:E.
    + intros H. injection H as <- <- <-.
      apply iteration_Return in E. destruct E as (Hhit & -> & _ & ->).
      destruct Hc as (Hr & Herr & Hcp & Hh). cbn [nonce stderr checkpoints hashed].
      repeat split; try lia; try assumption.
      destruct Hh as [Hh|[Hmax Hno]]; [|rewrite Hmax in Hhit; congruence].
      replace (S (Z.to_nat (nonce st))) with (Z.to_nat (nonce st + 1)) by lia.
      apply hashed_next; [lia | exact Hh].
    + discriminate.
    + apply IH. eapply Continue_consistent; eassumption.
Qed.

(** A call that ends the process: it does so with status 1, right after
    reporting a positive multiple of 1,000,000, at a suspension point where
    the interrupt waits; the candidates below that count were hashed, in
    order and once each, and none matched. *)
Lemma loop_Exited_record (fuel : nat) :
  forall st st' code,
  consistent st ->
  run' fuel st = (Exited code, st') ->
  code = 1 /\ 0 < nonce st' <= MAX_NONCE /\ nonce st' mod 1000000 = 0 /\
  stderr st' = progress_counts (nonce st') /\
  hd_error (stderr st') = Some (nonce st') /\
  Z.of_nat (checkpoints st') + 1 = nonce st' / 1000000 /\
  sigint (checkpoints st') = true /\
  rev (hashed st') = map cand' (seq 0 (Z.to_nat (nonce st'))) /\
  forall k, nonce st <= k < nonce st' -> hit' k = false.
Proof.
  induction fuel as [|fuel IH]; intros st st' code Hc; cbn [loop].
  - discriminate.
  - destruct (turn' st) as [n0 h0 st0|code0 st0|st0] eqn:E.
    + discriminate.
    + intros H. injection H as <- <-.
      pose proof (iteration_Exit_record _ _ _ E) as [He Hcp'].
      apply iteration_Exit in E.
      destruct E as (Hno & -> & Hmod & Hsig & Hn & Hhd).
      destruct Hc as (Hr & Herr & Hcp & Hh).
      assert (Hlt : nonce st < MAX_NONCE).
      { destruct (Z.eq_dec (nonce st) MAX_NONCE) as [Hmax|]; [|lia].
        rewrite increment_stuck, Hmax in Hmod by lia.
        destruct (MAX_NONCE_not_reported Hmod). }
      rewrite increment_below in Hn, Hmod, He by exact Hlt.
      destruct (progress_counts_report (nonce st)) as [Hq Hp];
        [lia | exact Hmod |].
      destruct Hh as [Hh|[Hmax _]]; [|lia].
      rewrite Hn, He, Hcp', Hhd, Hp, Hq, <- Herr.
      repeat split; try lia; try assumption.
      * apply hashed_next; [lia | exact Hh].
      * intros k Hk. replace k with (nonce st) by lia. exact Hno.
    + intros H.
      pose proof (Continue_consistent _ _ Hc E) as Hc0.
      destruct (IH _ _ _ Hc0 H) as (H1 & H2 & H3 & H4 & H5 & H6 & H7 & H8 & H9).
      repeat split; try assumption; try lia.
      intros k Hk.
      apply iteration_Continue in E. destruct E as (Hno & Hn & _).
      pose proof (increment_mono (nonce st)).
      destruct (Z.eq_dec k (nonce st)) as [->|Hne]; [exact Hno|].
      apply H9. lia.
Qed.

(** A loop still running is consistent. *)
Lemma loop_Pending_record (fuel : nat) :
  forall st st',
  consistent st -> run' fuel st = (Pending, st') -> consistent st'.
Proof.
  induction fuel as [|fuel IH]; intros st st' Hc; cbn [loop].
  - intros H. injection H as <-. exact Hc.
  - destruct (turn' st) as [n0 h0 st0|code0 st0|st0] eqn:E;
      try discriminate.
    apply IH. eapply Continue_consistent; eassumption.
Qed.

End LoopRecord.

Lemma candidates_upto (dataPrefix : js_string) (k : nat) :
  map (fun i : nat => candidate dataPrefix (Z.of_nat i)) (seq 0 k)
  = map (fun i : nat => utf8_encode dataPrefix ++ Number_toString (Z.of_nat i))
        (seq 0 k).
Proof. apply map_ext. intros i. apply candidate_bytes. lia. Qed.

(** A call that returns nonce [n] has computed exactly [n + 1] digests:
    those of the candidates of 0, 1, ..., [n], in that order, each once. *)
Theorem digests_in_order (sigint : nat -> bool) (fuel : nat)
    (dataPrefix : js_string) (requiredZeros n : Z) (digestHex : js_string) :
  fst (findNonceWithLeadingZeros sigint fuel dataPrefix requiredZeros)
    = Fulfilled n digestHex ->
  rev (hashed (snd (findNonceWithLeadingZeros sigint fuel dataPrefix
                      requiredZeros)))
  = map (fun i : nat =>
           utf8_encode dataPrefix ++ Number_toString (Z.of_nat i))
        (seq 0 (S (Z.to_nat n))).
Proof.
  destruct (findNonce_cases sigint fuel dataPrefix requiredZeros)
    as [[_ ->]|[_ ->]]; [discriminate|].
  destruct (loop _ _ _ _ _) as [out st] eqn:E. cbn [fst snd].
  intros ->.
  apply loop_Fulfilled_record in E; [|apply initial_consistent].
  destruct E as (_ & _ & _ & _ & Hh).
  rewrite Hh. apply candidates_upto.
Qed.

Lemma digests_in_order_witness :
  fst (findNonceWithLeadingZeros no_sigint 5 (lit "nv") 2)
    = Fulfilled 3
        (lit "00ab4a838d727d3feeaab53906b0a074d590cb35e72144ca92731295d6398c3d") /\
  rev (hashed (snd (findNonceWithLeadingZeros no_sigint 5 (lit "nv") 2)))
  = map (fun i : nat =>
           utf8_encode (lit "nv") ++ Number_toString (Z.of_nat i))
        (seq 0 (S (Z.to_nat 3))).
Proof.
  assert (H : fst (findNonceWithLeadingZeros no_sigint 5 (lit "nv") 2)
    = Fulfilled 3
        (lit "00ab4a838d727d3feeaab53906b0a074d590cb35e72144ca92731295d6398c3d")).
  { vm_compute. reflexivity. }
  split; [exact H|].
  exact (digests_in_order no_sigint 5 (lit "nv") 2 3 _ H).
Defined.

(** At any point of any call: the counter is within 0 .. 2^53; the counts
    written to stderr are exactly the positive multiples of 1,000,000 up to
    the counter, each once, latest first; and the call was suspended once
    per report, the last report apart when the process exited there. *)
Theorem reports_follow_counter (sigint : nat -> bool) (fuel : nat)
    (dataPrefix : js_string) (requiredZeros : Z) :
  let r := findNonceWithLeadingZeros sigint fuel dataPrefix requiredZeros in
  0 <= nonce (snd r) <= MAX_NONCE /\
  stderr (snd r) = progress_counts (nonce (snd r)) /\
  Z.of_nat (checkpoints (snd r))
    = nonce (snd r) / 1000000
      - match fst r with Exited _ => 1 | _ => 0 end.
Proof.
  cbv zeta.
  destruct (findNonce_cases sigint fuel dataPrefix requiredZeros)
    as [[_ ->]|[_ ->]].
  - cbn [fst snd nonce stderr checkpoints initial]. unfold MAX_NONCE.
    repeat split; lia.
  - destruct (loop _ _ _ _ _) as [out st] eqn:E. cbn [fst snd].
    destruct out as [n h|e|code|].
    + apply loop_Fulfilled_record in E; [|apply initial_consistent].
      destruct E as (Hr & -> & He & Hc & _).
      repeat split; try lia; assumption.
    + exfalso. apply (loop_not_Rejected sigint dataPrefix
                        (zeros requiredZeros) fuel initial e).
      now rewrite E.
    + apply loop_Exited_record in E; [|apply initial_consistent].
      destruct E as (_ & Hr & _ & He & _ & Hc & _).
      repeat split; try lia; assumption.
    + apply loop_Pending_record in E; [|apply initial_consistent].
      destruct E as (Hr & He & Hc & _).
      repeat split; try lia; assumption.
Qed.

(** A call that returns a nonce below 1,000,000 wrote nothing to stderr
    and was never suspended: it ran to its result in one go. *)
Theorem early_result_is_silent (sigint : nat -> bool) (fuel : nat)
    (dataPrefix : js_string) (requiredZeros n : Z) (digestHex : js_string) :
  fst (findNonceWithLeadingZeros sigint fuel dataPrefix requiredZeros)
    = Fulfilled n digestHex ->
  n < 1000000 ->
  stderr (snd (findNonceWithLeadingZeros sigint fuel dataPrefix
                 requiredZeros)) = [] /\
  checkpoints (snd (findNonceWithLeadingZeros sigint fuel dataPrefix
                      requiredZeros)) = 0%nat.
Proof.
  destruct (findNonce_cases sigint fuel dataPrefix requiredZeros)
    as [[_ ->]|[_ ->]]; [discriminate|].
  destruct (loop _ _ _ _ _) as [out st] eqn:E. cbn [fst snd].
  intros -> Hn.
  apply loop_Fulfilled_record in E; [|apply initial_consistent].
  destruct E as (Hr & _ & He & Hc & _).
  split.
  - rewrite He. apply progress_counts_none. lia.
  - rewrite Z.div_small in Hc by lia. lia.
Qed.

Lemma early_result_is_silent_witness :
  fst (findNonceWithLeadingZeros sigint_waiting 5 (lit "nv") 1)
    = Fulfilled 1
        (lit "02696dfa7ad2877520ecd561eaa7b6322003be7481d1e5cda83f32bd56e82d6c") /\
  1 < 1000000 /\
  stderr (snd (findNonceWithLeadingZeros sigint_waiting 5 (lit "nv") 1)) = [] /\
  checkpoints (snd (findNonceWithLeadingZeros sigint_waiting 5 (lit "nv") 1))
    = 0%nat.
Proof.
  assert (H : fst (findNonceWithLeadingZeros sigint_waiting 5 (lit "nv") 1)
    = Fulfilled 1
        (lit "02696dfa7ad2877520ecd561eaa7b6322003be7481d1e5cda83f32bd56e82d6c")).
  { vm_compute. reflexivity. }
  assert (Hn : 1 < 1000000) by lia.
  split; [exact H|]. split; [exact Hn|].
  exact (early_result_is_silent sigint_waiting 5 (lit "nv") 1 1 _ H Hn).
Defined.

(** When a call ends the process: the exit status is 1; the counter stands
    at a positive multiple of 1,000,000, which is the last count reported;
    the interrupt was waiting at that suspension point; exactly that many
    candidates were hashed, those of the nonces below the counter in order,
    and none of them matched. *)
Theorem exit_only_after_report (sigint : nat -> bool) (fuel : nat)
    (dataPrefix : js_string) (requiredZeros code : Z) (st : state) :
  findNonceWithLeadingZeros sigint fuel dataPrefix requiredZeros
    = (Exited code, st) ->
  code = 1 /\
  0 < nonce st /\ nonce st mod 1000000 = 0 /\
  hd_error (stderr st) = Some (nonce st) /\
  sigint (checkpoints st) = true /\
  rev (hashed st)
    = map (fun i : nat =>
             utf8_encode dataPrefix ++ Number_toString (Z.of_nat i))
          (seq 0 (Z.to_nat (nonce st))) /\
  forall k, 0 <= k < nonce st ->
            ~ leading_zeros requiredZeros (digest_of dataPrefix k).
Proof.
  destruct (findNonce_cases sigint fuel dataPrefix requiredZeros)
    as [[_ ->]|[Hz ->]]; [discriminate|].
  intros E.
  apply loop_Exited_record in E; [|apply initial_consistent].
  destruct E as (Hc & Hr & Hm & _ & Hhd & _ & Hs & Hh & Hno).
  repeat split; try lia; try assumption.
  - rewrite Hh. apply candidates_upto.
  - intros k Hk.
    apply no_match_not_leading_zeros; [lia|]. apply Hno.
    cbn [nonce initial]. exact Hk.
Qed.

Lemma exit_only_after_report_witness :
  exists st,
    findNonceWithLeadingZeros sigint_waiting (Z.to_nat 1000000) (lit "") 65
      = (Exited 1, st) /\
    1 = 1 /\
    0 < nonce st /\ nonce st mod 1000000 = 0 /\
    hd_error (stderr st) = Some (nonce st) /\
    sigint_waiting (checkpoints st) = true /\
    rev (hashed st)
      = map (fun i : nat =>
               utf8_encode (lit "") ++ Number_toString (Z.of_nat i))
            (seq 0 (Z.to_nat (nonce st))) /\
    forall k, 0 <= k < nonce st -> ~ leading_zeros 65 (digest_of (lit "") k).
Proof.
  remember (Z.to_nat 1000000) as fuel eqn:Efuel.
  remember (Z.to_nat 999999) as j eqn:Ej.
  destruct (loop_interrupted sigint_waiting (lit "") (zeros 65) j initial)
    with (fuel := fuel) as (st & Hrun & _).
  - cbn [nonce initial]. lia.
  - cbn [nonce initial]. lia.
  - intros k _. apply matches_too_long. lia.
  - reflexivity.
  - lia.
  - assert (H : findNonceWithLeadingZeros sigint_waiting fuel (lit "") 65
                = (Exited 1, st)).
    { rewrite findNonce_nonneg by (unfold MAX_STRING_LENGTH; lia). exact Hrun. }
    exists st. split; [exact H|].
    exact (exit_only_after_report sigint_waiting fuel (lit "") 65 1 st H).
Defined.

(** ** Difficulty *)

Lemma startsWith_fewer_zeros (h : js_string) (k k' : nat) :
  (k' <= k)%nat ->
  startsWith h (repeat 48 k) = true -> startsWith h (repeat 48 k') = true.
Proof.
  revert h k. induction k' as [|k' IH]; intros h k Hle H; [reflexivity|].
  destruct k as [|k]; [lia|].
  cbn [repeat startsWith] in *.
  destruct h as [|d h]; [discriminate|].
  apply andb_prop in H. destruct H as [Hd H].
  rewrite Hd. cbn [andb]. apply (IH h k); [lia | exact H].
Qed.

(** A digest text with [k] leading zeros has [k'] of them for [k' <= k]. *)
Lemma leading_zeros_fewer (k k' : Z) (h : js_string) :
  k' <= k -> leading_zeros k h -> leading_zeros k' h.
Proof.
  intros Hle. unfold leading_zeros.
  rewrite <- (repeat_length 48 (Z.to_nat k)) at 1.
  rewrite <- (repeat_length 48 (Z.to_nat k')) at 1.
  rewrite <- !startsWith_firstn.
  apply startsWith_fewer_zeros. lia.
Qed.

(** Asking for more zeros never gives a smaller nonce: of two calls on one
    prefix that both return, the one with the larger [requiredZeros]
    returns a nonce at least as large. *)
Theorem more_zeros_later_nonce (sigint1 sigint2 : nat -> bool)
    (fuel1 fuel2 : nat) (dataPrefix : js_string) (zeros1 zeros2 n1 n2 : Z)
    (h1 h2 : js_string) :
  zeros1 <= zeros2 ->
  fst (findNonceWithLeadingZeros sigint1 fuel1 dataPrefix zeros1)
    = Fulfilled n1 h1 ->
  fst (findNonceWithLeadingZeros sigint2 fuel2 dataPrefix zeros2)
    = Fulfilled n2 h2 ->
  n1 <= n2.
Proof.
  intros Hle H1 H2.
  apply findNonce_Fulfilled in H1. destruct H1 as (_ & Hn1 & _ & _ & Hmin1).
  apply findNonce_Fulfilled in H2. destruct H2 as (_ & Hn2 & Hd2 & Hl2 & _).
  destruct (Z.le_gt_cases n1 n2) as [Hok|Hgt]; [exact Hok|].
  exfalso. apply (Hmin1 n2); [lia|].
  rewrite Hd2 in Hl2. exact (leading_zeros_fewer _ _ _ Hle Hl2).
Qed.

Lemma more_zeros_later_nonce_witness :
  1 <= 2 /\
  fst (findNonceWithLeadingZeros no_sigint 2 (lit "nv") 1)
    = Fulfilled 1
        (lit "02696dfa7ad2877520ecd561eaa7b6322003be7481d1e5cda83f32bd56e82d6c") /\
  fst (findNonceWithLeadingZeros no_sigint 4 (lit "nv") 2)
    = Fulfilled 3
        (lit "00ab4a838d727d3feeaab53906b0a074d590cb35e72144ca92731295d6398c3d") /\
  1 <= 3.
Proof.
  assert (Hle : 1 <= 2) by lia.
  assert (H1 : fst (findNonceWithLeadingZeros no_sigint 2 (lit "nv") 1)
    = Fulfilled 1
        (lit "02696dfa7ad2877520ecd561eaa7b6322003be7481d1e5cda83f32bd56e82d6c")).
  { vm_compute. reflexivity. }
  assert (H2 : fst (findNonceWithLeadingZeros no_sigint 4 (lit "nv") 2)
    = Fulfilled 3
        (lit "00ab4a838d727d3feeaab53906b0a074d590cb35e72144ca92731295d6398c3d")).
  { vm_compute. reflexivity. }
  split; [exact Hle|]. split; [exact H1|]. split; [exact H2|].
  exact (more_zeros_later_nonce _ _ _ _ _ _ _ _ _ _ _ Hle H1 H2).
Defined.

(** ** The candidate encoding *)

Lemma Number_toString_inj (n1 n2 : Z) :
  0 <= n1 -> 0 <= n2 ->
  Number_toString n1 = Number_toString n2 -> n1 = n2.
Proof.
  intros H1 H2 E.
  rewrite <- (Number_toString_value n1 H1), <- (Number_toString_value n2 H2).
  now rewrite E.
Qed.

(** Under one prefix, two different nonces never give the same bytes to
    hash. *)
Theorem candidates_differ (dataPrefix : js_string) (n1 n2 : Z) :
  0 <= n1 -> 0 <= n2 -> n1 <> n2 ->
  candidate dataPrefix n1 <> candidate dataPrefix n2.
Proof.
  intros H1 H2 Hne E.
  rewrite !candidate_bytes in E by assumption.
  apply app_inv_head in E. apply Hne.
  now apply Number_toString_inj.
Qed.

Lemma candidates_differ_witness :
  0 <= 1 /\ 0 <= 10 /\ 1 <> 10 /\
  candidate (lit "nv") 1 <> candidate (lit "nv") 10.
Proof.
  assert (H1 : 0 <= 1) by lia.
  assert (H2 : 0 <= 10) by lia.
  assert (Hne : 1 <> 10) by lia.
  split; [exact H1|]. split; [exact H2|]. split; [exact Hne|].
  exact (candidates_differ (lit "nv") 1 10 H1 H2 Hne).
Defined.

(** The fuel of [digits_from] does not matter once it covers the digits. *)
Lemma digits_from_fuel (f1 : nat) :
  forall f2 n acc,
  0 <= n < 10 ^ Z.of_nat (S f1) -> 0 <= n < 10 ^ Z.of_nat (S f2) ->
  digits_from (S f1) n acc = digits_from (S f2) n acc.
Proof.
  induction f1 as [|f1 IH]; intros f2 n acc Hn1 Hn2.
  - change (10 ^ Z.of_nat 1) with 10 in Hn1.
    cbn [digits_from]. destruct (Z.ltb_spec n 10); [reflexivity | lia].
  - cbn [digits_from]. destruct (Z.ltb_spec n 10) as [Hlt|Hge]; [reflexivity|].
    destruct f2 as [|f2].
    { change (10 ^ Z.of_nat 1) with 10 in Hn2. lia. }
    apply IH.
    + rewrite (Nat2Z.inj_succ (S f1)), Z.pow_succ_r in Hn1 by lia.
      split; [apply Z.div_pos; lia|]. apply Z.div_lt_upper_bound; lia.
    + rewrite (Nat2Z.inj_succ (S f2)), Z.pow_succ_r in Hn2 by lia.
      split; [apply Z.div_pos; lia|]. apply Z.div_lt_upper_bound; lia.
Qed.

(** The numeral of ten times a positive number is its numeral followed by
    "0". *)
Lemma Number_toString_times_ten (n : Z) :
  0 < n -> Number_toString (10 * n) = Number_toString n ++ lit "0".
Proof.
  intros Hn. unfold Number_toString at 1.
  cbn [digits_from].
  destruct (Z.ltb_spec (10 * n) 10) as [Hlt|_]; [lia|].
  rewrite digits_from_acc.
  replace (10 * n / 10) with n by (Z.div_mod_to_equations; lia).
  replace ((10 * n) mod 10) with 0 by (Z.div_mod_to_equations; lia).
  f_equal.
  pose proof (Z.log2_pos (10 * n) ltac:(lia)) as Hpos.
  destruct (Z.to_nat (Z.log2 (10 * n))) as [|f] eqn:Ef; [lia|].
  unfold Number_toString.
  apply digits_from_fuel.
  - pose proof (toString_fuel (10 * n) ltac:(lia)) as Hb.
    rewrite Ef in Hb.
    rewrite (Nat2Z.inj_succ (S f)), Z.pow_succ_r in Hb by lia. lia.
  - apply toString_fuel. lia.
Qed.

(** Nothing separates the prefix from the digits: the prefix followed by
    the numeral of [n > 0] has, at nonce 0, the very bytes that the prefix
    alone has at nonce [10 * n], hence the same digest. *)
Theorem prefix_digits_run_together (dataPrefix : js_string) (n : Z) :
  0 < n ->
  candidate (dataPrefix ++ Number_toString n) 0
    = candidate dataPrefix (10 * n) /\
  digest_of (dataPrefix ++ Number_toString n) 0
    = digest_of dataPrefix (10 * n).
Proof.
  intros Hn.
  assert (E : candidate (dataPrefix ++ Number_toString n) 0
              = candidate dataPrefix (10 * n)).
  { unfold candidate. rewrite Number_toString_times_ten by exact Hn.
    rewrite <- app_assoc. reflexivity. }
  split; [exact E|].
  unfold digest_of.
  rewrite <- (candidate_bytes (dataPrefix ++ Number_toString n) 0) by lia.
  rewrite <- (candidate_bytes dataPrefix (10 * n)) by lia.
  now rewrite E.
Qed.

Lemma prefix_digits_run_together_witness :
  0 < 7 /\
  candidate (lit "nv" ++ Number_toString 7) 0 = candidate (lit "nv") (10 * 7) /\
  digest_of (lit "nv" ++ Number_toString 7) 0 = digest_of (lit "nv") (10 * 7).
Proof.
  assert (H : 0 < 7) by lia.
  split; [exact H|].
  exact (prefix_digits_run_together (lit "nv") 7 H).
Defined.

(** * [main] and the script *)

(** The search of [main] is never rejected, so its [catch] never runs. *)
Lemma main_cases (sigint : nat -> bool) (fuel : nat) :
  let dataPrefix := lit "Hello, World! " in
  (exists n h st,
     findNonceWithLeadingZeros sigint fuel dataPrefix 5 = (Fulfilled n h, st) /\
     main sigint fuel =
       Execution (Fulfilled n h)
         ([console_log (lit "Searching for a nonce that produces a SHA256 hash starting with 5 zeros...");
           console_log (lit "Data prefix: '" ++ dataPrefix ++ lit "'");
           console_log (lit "This might take a moment..." ++ [10]);
           console_log (lit "Found nonce: " ++ Number_toString n);
           console_log (lit "Input data: '"
                        ++ (dataPrefix ++ Number_toString n) ++ lit "'");
           console_log (lit "SHA256 hash: " ++ h);
           console_log ([0x2713] ++ lit " Hash starts with '00000': "
                        ++ Boolean_toString (startsWith h (lit "00000")))])
         st) \/
  (exists code st,
     findNonceWithLeadingZeros sigint fuel dataPrefix 5 = (Exited code, st) /\
     main sigint fuel =
       Execution (Exited code)
         ([console_log (lit "Searching for a nonce that produces a SHA256 hash starting with 5 zeros...");
           console_log (lit "Data prefix: '" ++ dataPrefix ++ lit "'");
           console_log (lit "This might take a moment..." ++ [10]);
           console_log interrupted_text])
         st) \/
  (exists st,
     findNonceWithLeadingZeros sigint fuel dataPrefix 5 = (Pending, st) /\
     main sigint fuel =
       Execution Pending
         ([console_log (lit "Searching for a nonce that produces a SHA256 hash starting with 5 zeros...");
           console_log (lit "Data prefix: '" ++ dataPrefix ++ lit "'");
           console_log (lit "This might take a moment..." ++ [10])])
         st).
Proof.
  cbv zeta. unfold main.
  destruct (findNonceWithLeadingZeros sigint fuel (lit "Hello, World! ") 5)
    as [[n h|e|code|] st] eqn:E.
  - left. exists n, h, st. split; reflexivity.
  - exfalso.
    assert (H : exists e', fst (findNonceWithLeadingZeros sigint fuel
                                  (lit "Hello, World! ") 5) = Rejected e').
    { exists e. now rewrite E. }
    destruct H as [e' H]. revert H.
    rewrite findNonce_nonneg by (unfold MAX_STRING_LENGTH; lia). apply loop_not_Rejected.
  - right. left. exists code, st. split; reflexivity.
  - right. right. exists st. split; reflexivity.
Qed.

Lemma digest_of_input (dataPrefix : js_string) (n : Z) :
  0 <= n ->
  sha256_hex (utf8_encode (dataPrefix ++ Number_toString n))
    = digest_of dataPrefix n.
Proof.
  intros Hn. unfold digest_of.
  rewrite <- candidate_bytes by exact Hn. reflexivity.
Qed.

Lemma startsWith_five_zeros (h : js_string) :
  leading_zeros 5 h -> startsWith h (lit "00000") = true.
Proof.
  intros H. apply startsWith_firstn. exact H.
Qed.

(** The first match of [main]'s search is at most 2,363,673: the digest of
    "Hello, World! 2363673" begins with five zeros. *)
Lemma main_search_returns (fuel : nat) :
  2363673 < Z.of_nat fuel ->
  exists n h st,
    0 <= n <= 2363673 /\
    findNonceWithLeadingZeros no_sigint fuel (lit "Hello, World! ") 5
      = (Fulfilled n h, st).
Proof.
  intros Hfuel.
  assert (Hhit : matches (lit "Hello, World! ") (zeros 5) 2363673 = true).
  { vm_compute. reflexivity. }
  destruct (first_match _ _ 2363673 ltac:(lia) Hhit) as (n & Hn & Hhit' & Hmin).
  destruct (loop_finds no_sigint (lit "Hello, World! ") (zeros 5)
              (Z.to_nat n) initial n) with (fuel := fuel) as [Hf _].
  - cbn [nonce initial]. lia.
  - unfold MAX_NONCE. lia.
  - cbn [nonce initial]. exact Hmin.
  - exact Hhit'.
  - reflexivity.
  - lia.
  - exists n, (sha256_hex (candidate (lit "Hello, World! ") n)).
    rewrite findNonce_nonneg by (unfold MAX_STRING_LENGTH; lia).
    destruct (loop _ _ _ _ _) as [out st]. cbn [fst] in Hf. subst out.
    exists st. split; [exact Hn | reflexivity].
Qed.

(** Run without an interrupt and given 2,363,674 turns or more, [main]
    returns: a nonce of at most 2,363,673 with a digest text that begins
    with five zeros. *)
Theorem main_returns (fuel : nat) :
  2363673 < Z.of_nat fuel ->
  exists n h,
    result (main no_sigint fuel) = Fulfilled n h /\
    0 <= n <= 2363673 /\
    leading_zeros 5 h.
Proof.
  intros Hfuel.
  destruct (main_search_returns fuel Hfuel) as (n & h & st & Hn & E).
  exists n, h.
  assert (H : fst (findNonceWithLeadingZeros no_sigint fuel
                     (lit "Hello, World! ") 5) = Fulfilled n h)
    by now rewrite E.
  apply findNonce_Fulfilled in H. destruct H as (_ & _ & _ & Hl & _).
  split; [|split; [exact Hn | exact Hl]].
  unfold main. rewrite E. reflexivity.
Qed.

Lemma main_returns_witness :
  2363673 < Z.of_nat (Z.to_nat 2363674) /\
  exists n h,
    result (main no_sigint (Z.to_nat 2363674)) = Fulfilled n h /\
    0 <= n <= 2363673 /\
    leading_zeros 5 h.
Proof.
  assert (H : 2363673 < Z.of_nat (Z.to_nat 2363674)) by lia.
  split; [exact H|].
  exact (main_returns (Z.to_nat 2363674) H).
Defined.

(** When [main] returns [(n, h)], what it printed is consistent: seven
    lines; the text quoted on the "Input data" line is the prefix followed
    by the numeral of [n], and its UTF-8 bytes hash to the [h] shown on the
    "SHA256 hash" line; the check line ends in "true"; and no nonce below
    [n] passes the check. *)
Theorem main_prints_verified_result (sigint : nat -> bool) (fuel : nat)
    (n : Z) (h : js_string) (out : list output) (st : state) :
  main sigint fuel = Execution (Fulfilled n h) out st ->
  length out = 7%nat /\
  nth_error out 3 = Some (console_log (lit "Found nonce: " ++ Number_toString n)) /\
  nth_error out 4
    = Some (console_log
              (lit "Input data: '"
               ++ (lit "Hello, World! " ++ Number_toString n) ++ lit "'")) /\
  sha256_hex (utf8_encode (lit "Hello, World! " ++ Number_toString n)) = h /\
  nth_error out 5 = Some (console_log (lit "SHA256 hash: " ++ h)) /\
  nth_error out 6
    = Some (console_log ([0x2713] ++ lit " Hash starts with '00000': true")) /\
  forall k, 0 <= k < n ->
    startsWith
      (sha256_hex (utf8_encode (lit "Hello, World! " ++ Number_toString k)))
      (lit "00000") = false.
Proof.
  intros Hmain.
  destruct (main_cases sigint fuel)
    as [(n' & h' & st' & E & Hm)|[(c & st' & _ & Hm)|(st' & _ & Hm)]];
    try (rewrite Hm in Hmain; discriminate).
  assert (H : fst (findNonceWithLeadingZeros sigint fuel
                     (lit "Hello, World! ") 5) = Fulfilled n' h')
    by now rewrite E.
  apply findNonce_Fulfilled in H. destruct H as (_ & Hn & Hd & Hl & Hmin).
  rewrite (startsWith_five_zeros h' Hl) in Hm.
  rewrite Hm in Hmain. clear Hm E.
  assert (En : n' = n) by congruence.
  assert (Eh : h' = h) by congruence.
  rewrite En, Eh in *. clear En Eh n' h'.
  assert (Eo : out = [console_log (lit "Searching for a nonce that produces a SHA256 hash starting with 5 zeros...");
           console_log (lit "Data prefix: '" ++ lit "Hello, World! " ++ lit "'");
           console_log (lit "This might take a moment..." ++ [10]);
           console_log (lit "Found nonce: " ++ Number_toString n);
           console_log (lit "Input data: '"
                        ++ (lit "Hello, World! " ++ Number_toString n) ++ lit "'");
           console_log (lit "SHA256 hash: " ++ h);
           console_log ([0x2713] ++ lit " Hash starts with '00000': "
                        ++ Boolean_toString true)])
    by congruence.
  rewrite Eo. clear Hmain Eo.
  split; [reflexivity|]. split; [reflexivity|]. split; [reflexivity|].
  split.
  { rewrite Hd. apply digest_of_input. exact Hn. }
  split; [reflexivity|]. split; [reflexivity|].
  intros k Hk.
  change (matches (lit "Hello, World! ") (zeros 5) k = false).
  apply no_match_not_leading_zeros; [lia|]. apply Hmin, Hk.
Qed.

Lemma main_prints_verified_result_witness :
  exists n h out st,
    main no_sigint (Z.to_nat 2363674) = Execution (Fulfilled n h) out st /\
    length out = 7%nat /\
    nth_error out 3
      = Some (console_log (lit "Found nonce: " ++ Number_toString n)) /\
    nth_error out 4
      = Some (console_log
                (lit "Input data: '"
                 ++ (lit "Hello, World! " ++ Number_toString n) ++ lit "'")) /\
    sha256_hex (utf8_encode (lit "Hello, World! " ++ Number_toString n)) = h /\
    nth_error out 5 = Some (console_log (lit "SHA256 hash: " ++ h)) /\
    nth_error out 6
      = Some (console_log ([0x2713] ++ lit " Hash starts with '00000': true")) /\
    forall k, 0 <= k < n ->
      startsWith
        (sha256_hex (utf8_encode (lit "Hello, World! " ++ Number_toString k)))
        (lit "00000") = false.
Proof.
  remember (Z.to_nat 2363674) as fuel eqn:Ef.
  assert (Hfuel : 2363673 < Z.of_nat fuel) by lia.
  destruct (main_search_returns fuel Hfuel) as (n & h & st & _ & E).
  destruct (main_cases no_sigint fuel)
    as [(n' & h' & st' & E' & Hm)|[(c & st' & E' & _)|(st' & E' & _)]];
    rewrite E in E'; try discriminate.
  injection E' as <- <- <-.
  exists n, h. eexists. exists st. split; [exact Hm|].
  exact (main_prints_verified_result no_sigint fuel n h _ st Hm).
Defined.

(** What any call has written to stderr: the progress counts due at its
    counter. *)
Lemma findNonce_reports (sigint : nat -> bool) (fuel : nat)
    (dataPrefix : js_string) (requiredZeros : Z) (out : settled) (st : state) :
  findNonceWithLeadingZeros sigint fuel dataPrefix requiredZeros = (out, st) ->
  stderr st = progress_counts (nonce st).
Proof.
  destruct (findNonce_cases sigint fuel dataPrefix requiredZeros)
    as [[_ ->]|[_ ->]].
  - intros H. injection H as <- <-. reflexivity.
  - intros E. destruct out as [n h|e|code|].
    + apply loop_Fulfilled_record in E; [|apply initial_consistent].
      destruct E as (_ & -> & He & _). exact He.
    + exfalso. apply (loop_not_Rejected sigint dataPrefix
                        (zeros requiredZeros) fuel initial e).
      now rewrite E.
    + apply loop_Exited_record in E; [|apply initial_consistent].
      destruct E as (_ & _ & _ & He & _). exact He.
    + apply loop_Pending_record in E; [|apply initial_consistent].
      destruct E as (_ & He & _). exact He.
Qed.

(** The script never reports an error.  On the console, everything it
    prints goes through [console.log], never [console.error]; on stderr it
    writes the progress counts of its search (the positive multiples of
    1,000,000 up to the counter) and nothing else.  It is never left with a
    rejected promise, and it ends the process only through the SIGINT
    handler, with status 1 after the line "Search interrupted by user.",
    which takes an interrupt to have been sent. *)
Theorem script_exits_only_on_interrupt (sigint : nat -> bool) (fuel : nat) :
  (forall x, In x (console (script sigint fuel)) ->
             exists text, x = console_log text) /\
  stderr (search (script sigint fuel))
    = progress_counts (nonce (search (script sigint fuel))) /\
  (forall e, result (script sigint fuel) <> Rejected e) /\
  (forall code, result (script sigint fuel) = Exited code ->
     code = 1 /\
     (exists k, sigint k = true) /\
     nth_error (console (script sigint fuel)) 3
       = Some (console_log interrupted_text) /\
     length (console (script sigint fuel)) = 4%nat).
Proof.
  unfold script.
  destruct (main_cases sigint fuel)
    as [(n & h & st & E & Hm)|[(c & st & E & Hm)|(st & E & Hm)]];
    rewrite Hm; cbn [result console search app];
    pose proof (findNonce_reports _ _ _ _ _ _ E) as Herr.
  - split; [|split; [exact Herr|split]].
    + intros x Hin.
      repeat (destruct Hin as [<-|Hin]; [eexists; reflexivity|]).
      destruct Hin.
    + discriminate.
    + discriminate.
  - split; [|split; [exact Herr|split]].
    + intros x Hin.
      repeat (destruct Hin as [<-|Hin]; [eexists; reflexivity|]).
      destruct Hin.
    + discriminate.
    + intros code H. injection H as <-.
      rewrite findNonce_nonneg in E by (unfold MAX_STRING_LENGTH; lia).
      apply loop_Exited_record in E; [|apply initial_consistent].
      destruct E as (Hc & _ & _ & _ & _ & _ & Hs & _).
      split; [exact Hc|]. split; [eauto|]. split; reflexivity.
  - split; [|split; [exact Herr|split]].
    + intros x Hin.
      repeat (destruct Hin as [<-|Hin]; [eexists; reflexivity|]).
      destruct Hin.
    + discriminate.
    + discriminate.
Qed.
